(** * CSV to TXT converter: the row-to-file naming engine

    A shallow embedding of the two variants of the converter,
    [app.py] (module [App]) and [txt_to_csv.py] (module [TxtToCsv]):
    filename sanitisation, text selection, collision renaming and the
    conversion loop that fills the archive.

    Python [str] values are lists of Unicode code points, the [set] of used
    names is a [gset], the [Counter] a [gmap]; the rows of the data frame
    are label/value lists in column order. *)

From Stdlib Require Import NArith ZArith List String Ascii Bool Lia.
From Stdlib Require Import DecimalString DecimalN.
From stdpp Require Import gmap list.

Open Scope N_scope.

(** ** Python strings *)

(** A [str] is a sequence of code points. *)
Abbreviation pystr := (list N).

(** An ASCII literal of the source. *)
Definition lit (s : string) : pystr :=
  List.map N_of_ascii (list_ascii_of_string s).

(** [str(n)] / [f"{n}"] for a non-negative [int]. *)
Definition str_of_int (n : N) : pystr :=
  lit (NilEmpty.string_of_uint (N.to_uint n)).

(** [str.isspace] on one code point; the same set drives [str.strip()] and
    the [\s] class of [re] on [str] patterns. *)
Definition isspace (c : N) : bool :=
  ((9 <=? c) && (c <=? 13)) || ((28 <=? c) && (c <=? 32))
  || (c =? 133) || (c =? 160) || (c =? 5760)
  || ((8192 <=? c) && (c <=? 8202))
  || (c =? 8232) || (c =? 8233) || (c =? 8239) || (c =? 8287)
  || (c =? 12288).

Definition SPACE : N := 32.
Definition UNDERSCORE : N := 95.
Definition DOT : N := 46.
Definition SLASH : N := 47.

Fixpoint lstrip (s : pystr) : pystr :=
  match s with
  | [] => []
  | c :: r => if isspace c then lstrip r else s
  end.

Fixpoint rstrip (s : pystr) : pystr :=
  match s with
  | [] => []
  | c :: r =>
      match rstrip r with
      | [] => if isspace c then [] else [c]
      | r' => c :: r'
      end
  end.

(** [s.strip()] *)
Definition strip (s : pystr) : pystr := rstrip (lstrip s).

(** [re.sub(r"\s+", " ", s)]: every maximal run of whitespace becomes one
    space.  [in_run] tells that the previous code point was whitespace. *)
Fixpoint collapse_from (in_run : bool) (s : pystr) : pystr :=
  match s with
  | [] => []
  | c :: r =>
      if isspace c
      then (if in_run then collapse_from true r else SPACE :: collapse_from true r)
      else c :: collapse_from false r
  end.

Definition collapse_ws (s : pystr) : pystr := collapse_from false s.

(** [re.sub(cls, "_", s)] for a one-character class [cls]. *)
Definition sub_class (cls : N -> bool) (s : pystr) : pystr :=
  List.map (fun c => if cls c then UNDERSCORE else c) s.

(** ASCII part of [str.lower()].  No code point outside [A-Z] lowers to a
    character of the literals [".txt"] or ["filename"] the source compares
    with, so those comparisons see exactly this function. *)
Definition lower_char (c : N) : N :=
  if (65 <=? c) && (c <=? 90) then c + 32 else c.

Definition lower (s : pystr) : pystr := List.map lower_char s.

Definition pystr_eqb (a b : pystr) : bool := bool_decide (a = b).

(** [s.endswith(t)] *)
Definition endswith (s t : pystr) : bool :=
  (length t <=? length s)%nat
  && pystr_eqb (skipn (length s - length t)%nat s) t.

(** ** [os.path.splitext] (posixpath) *)

Fixpoint rfind_from (c : N) (p : pystr) (i acc : Z) : Z :=
  match p with
  | [] => acc
  | x :: r => rfind_from c r (i + 1)%Z (if x =? c then i else acc)
  end.

(** [p.rfind(c)], [-1] when [c] does not occur. *)
Definition rfind (c : N) (p : pystr) : Z := rfind_from c p 0%Z (-1)%Z.

(** [p[a:b]] for [0 <= a]. *)
Definition slice (p : pystr) (a b : Z) : pystr :=
  firstn (Z.to_nat (b - a)) (skipn (Z.to_nat a) p).

(** [genericpath._splitext(p, "/", None, ".")]: split at the last dot when
    it comes after the last separator and some character between the
    separator and that dot is not a dot. *)
Definition splitext (p : pystr) : pystr * pystr :=
  let sepIndex := rfind SLASH p in
  let dotIndex := rfind DOT p in
  if (sepIndex <? dotIndex)%Z
  then
    if existsb (fun x => negb (x =? DOT)) (slice p (sepIndex + 1)%Z dotIndex)
    then (firstn (Z.to_nat dotIndex) p, skipn (Z.to_nat dotIndex) p)
    else (p, [])
  else (p, []).

(** ** The table *)

(** A cell as [pandas.read_csv] yields it.  A numeric cell carries the text
    [str()] gives for it; a missing cell is the float NaN. *)
Inductive cell :=
| CStr (s : pystr)
| CNum (text : pystr)
| CBool (b : bool)
| CMissing.

(** [str(v)] / [f"{v}"] *)
Definition py_str (v : cell) : pystr :=
  match v with
  | CStr s => s
  | CNum t => t
  | CBool true => lit "True"
  | CBool false => lit "False"
  | CMissing => lit "nan"
  end.

(** A row as [iterrows] yields it: a [Series] of values labelled by the
    columns, in column order. *)
Abbreviation Series := (list (pystr * cell)).

Definition values (row : Series) : list cell := List.map snd row.

(** The value at label [c]; [None] when the label is not in the index. *)
Definition lookup_label (row : Series) (c : pystr) : option cell :=
  match List.find (fun p => pystr_eqb (fst p) c) row with
  | Some p => Some (snd p)
  | None => None
  end.

(** [row.get(key, default)]; [key] may be Python's [None]. *)
Definition Series_get (row : Series) (key : option pystr) : option cell :=
  match key with
  | Some c => lookup_label row c
  | None => None
  end.

Record DataFrame := {
  columns : list pystr;
  data : list (list cell)
}.

(** A data frame is rectangular: a line with fewer fields than the header
    reads as NaN in the remaining columns. *)
Fixpoint label_row (cols : list pystr) (cells : list cell) : Series :=
  match cols with
  | [] => []
  | c :: cs => (c, hd CMissing cells) :: label_row cs (tl cells)
  end.

Fixpoint iterrows_from (cols : list pystr) (i : N) (rows : list (list cell))
  : list (N * Series) :=
  match rows with
  | [] => []
  | r :: rs => (i, label_row cols r) :: iterrows_from cols (N.succ i) rs
  end.

(** [df.iterrows()] under the default [RangeIndex], where the label of a
    row is its position; [iterrows_labelled] below is [df.iterrows()] for a
    frame with an index of its own. *)
Definition iterrows (df : DataFrame) : list (N * Series) :=
  iterrows_from (columns df) 0 (data df).

(** [df.iterrows()] for a frame whose index holds the labels [index], one
    for each row: the label comes with the row. *)
Definition iterrows_labelled {label : Type} (index : list label) (df : DataFrame)
  : list (label * Series) :=
  combine index (List.map (label_row (columns df)) (data df)).

(** [len(df)] *)
Definition len_df (df : DataFrame) : N := N.of_nat (length (data df)).

(** [df.empty] *)
Definition df_empty (df : DataFrame) : bool :=
  match columns df, data df with
  | [], _ => true
  | _, [] => true
  | _, _ => false
  end.

(** One [zf.writestr(name, text)]. *)
Record zip_entry := {
  entry_name : pystr;
  entry_text : pystr
}.

(** ** Exceptions *)

(** [KeyError] is what [row[c]] raises for a label outside the index.
    [OutOfFuel] stands for a [while True] loop that has not returned within
    the rounds it was given.  [TypeError] is what [i + 1] raises for an index
    label that is not a number, and [WritestrError] stands for whatever
    [zf.writestr] raises when it does not take a name or a text. *)
Inductive exn :=
| KeyError
| OutOfFuel
| TypeError
| WritestrError.

Inductive result (A : Type) :=
| Ok (a : A)
| Raise (e : exn).

Arguments Ok {A} a.
Arguments Raise {A} e.

Definition bind {A B} (m : result A) (k : A -> result B) : result B :=
  match m with
  | Ok a => k a
  | Raise e => Raise e
  end.

Notation "x <- m ;; k" := (bind m (fun x => k))
  (at level 100, m at next level, right associativity).

(** ** Variant [app.py] *)

Module App.

(** The character class of the first [re.sub]: backslash, slash, colon,
    star, question mark, double quote, angle brackets, bar, CR, LF, TAB. *)
Definition unsafe_chars : list N :=
  [92; 47; 58; 42; 63; 34; 60; 62; 124; 13; 10; 9].

Definition unsafe (c : N) : bool := existsb (N.eqb c) unsafe_chars.

Definition sanitize_filename (name : pystr) : pystr :=
  let name := strip name in
  let name := sub_class unsafe name in
  let name := collapse_ws name in
  match name with
  | [] => lit "untitled"
  | _ => name
  end.

Fixpoint first_string_cell (row : list cell) : option pystr :=
  match row with
  | [] => None
  | CStr val :: rest =>
      match strip val with
      | [] => first_string_cell rest
      | _ => Some val
      end
  | _ :: rest => first_string_cell rest
  end.

(** [f"{base}_{i}{ext}"] *)
Definition candidate (base ext : pystr) (i : N) : pystr :=
  base ++ lit "_" ++ str_of_int i ++ ext.

(** The [while True] loop of [ensure_unique], unrolled [fuel] times. *)
Fixpoint probe (fuel : nat) (base ext : pystr) (used : gset pystr) (i : N)
  : option pystr :=
  match fuel with
  | O => None
  | S k =>
      if bool_decide (candidate base ext i ∈ used)
      then probe k base ext used (i + 1)
      else Some (candidate base ext i)
  end.

(** [ensure_unique] returns the name and leaves [used] updated. *)
Definition ensure_unique_fuel (fuel : nat) (name : pystr) (used : gset pystr)
  : option (pystr * gset pystr) :=
  let '(base, ext) := splitext name in
  if bool_decide (name ∈ used)
  then
    match probe fuel base ext used 2 with
    | Some c => Some (c, {[c]} ∪ used)
    | None => None
    end
  else Some (name, {[name]} ∪ used).

(** The loop never needs more rounds than [used] has names, plus one. *)
Definition ensure_unique (name : pystr) (used : gset pystr)
  : result (pystr * gset pystr) :=
  match ensure_unique_fuel (S (size used)) name used with
  | Some r => Ok r
  | None => Raise OutOfFuel
  end.

(** The first column whose lowered label is ["filename"]. *)
Definition find_filename_col (cols : list pystr) : option pystr :=
  List.find (fun col => pystr_eqb (lower col) (lit "filename")) cols.

(** [row[c]] *)
Definition getitem (row : Series) (c : pystr) : result cell :=
  match lookup_label row c with
  | Some v => Ok v
  | None => Raise KeyError
  end.

Definition raw_name (filename_col : option pystr) (i : N) (row : Series)
  : result pystr :=
  match filename_col with
  | Some c => v <- getitem row c ;; Ok (py_str v ++ lit ".txt")
  | None => Ok (lit "row_" ++ str_of_int (i + 1) ++ lit ".txt")
  end.

(** Lines 86-91: the name handed to [ensure_unique]. *)
Definition resolve (filename_col : option pystr) (i : N) (row : Series)
  : result pystr :=
  raw <- raw_name filename_col i row ;;
  Ok (sanitize_filename raw).

Record loop_state := {
  used_names : gset pystr;
  created : N;
  zf : list zip_entry
}.

Definition initial : loop_state :=
  {| used_names := ∅; created := 0; zf := [] |}.

(** One iteration of [for i, row in df.iterrows()], for an integer label
    [i] and a [zf.writestr] that returns: [zf] records the call with the name
    and the text it is given.  [AppScript.body] below is the iteration for
    any label and for a [zf.writestr] that may raise. *)
Definition body (filename_col : option pystr) (st : loop_state)
  (ir : N * Series) : result loop_state :=
  let '(i, row) := ir in
  match first_string_cell (values row) with
  | None => Ok st
  | Some text_value =>
      file_name <- resolve filename_col i row ;;
      r <- ensure_unique file_name (used_names st) ;;
      Ok {| used_names := snd r;
            created := created st + 1;
            zf := zf st ++ [ {| entry_name := fst r; entry_text := text_value |} ] |}
  end.

Fixpoint loop (filename_col : option pystr) (st : loop_state)
  (rows : list (N * Series)) : result loop_state :=
  match rows with
  | [] => Ok st
  | ir :: rest => st' <- body filename_col st ir ;; loop filename_col st' rest
  end.

(** What the success message reports, and the archive. *)
Record report := {
  rowsProcessed : N;
  filesCreated : N;
  archive : list zip_entry
}.

(** The run under the default index, with every [zf.writestr] returning. *)
Definition convert (df : DataFrame) : result report :=
  st <- loop (find_filename_col (columns df)) initial (iterrows df) ;;
  Ok {| rowsProcessed := len_df df;
        filesCreated := created st;
        archive := zf st |}.

End App.

(** ** [app.py] with an index of its own and a [zipfile] that can raise *)

(** [ZipInfo.__init__]: the member name is the name it is given, cut at its
    first NUL. *)
Fixpoint ZipInfo_filename (name : pystr) : pystr :=
  match name with
  | [] => []
  | c :: rest => if c =? 0 then [] else c :: ZipInfo_filename rest
  end.

(** [zf.namelist()] after the calls [calls] of [zf.writestr]. *)
Definition namelist (calls : list zip_entry) : list pystr :=
  List.map (fun e => ZipInfo_filename (entry_name e)) calls.

Module AppScript.

Section Run.

Context {label : Type}.

(** The text of [i + 1] in [f"row_{i+1}.txt"] for the index label [i];
    [None] when [i + 1] raises [TypeError]. *)
Variable succ_text : label -> option pystr.

(** Whether [zf.writestr(name, text)] returns for this name and this text
    rather than raises. *)
Variable writestr_returns : pystr -> pystr -> bool.

Definition raw_name (filename_col : option pystr) (i : label) (row : Series)
  : result pystr :=
  match filename_col with
  | Some c => v <- App.getitem row c ;; Ok (py_str v ++ lit ".txt")
  | None =>
      match succ_text i with
      | Some n => Ok (lit "row_" ++ n ++ lit ".txt")
      | None => Raise TypeError
      end
  end.

(** Lines 86-91. *)
Definition resolve (filename_col : option pystr) (i : label) (row : Series)
  : result pystr :=
  raw <- raw_name filename_col i row ;;
  Ok (App.sanitize_filename raw).

(** Line 94. *)
Definition writestr (zf : list zip_entry) (name text : pystr)
  : result (list zip_entry) :=
  if writestr_returns name text
  then Ok (zf ++ [ {| entry_name := name; entry_text := text |} ])
  else Raise WritestrError.

(** One iteration of [for i, row in df.iterrows()]. *)
Definition body (filename_col : option pystr) (st : App.loop_state)
  (ir : label * Series) : result App.loop_state :=
  let '(i, row) := ir in
  match App.first_string_cell (values row) with
  | None => Ok st
  | Some text_value =>
      file_name <- resolve filename_col i row ;;
      r <- App.ensure_unique file_name (App.used_names st) ;;
      zf' <- writestr (App.zf st) (fst r) text_value ;;
      Ok {| App.used_names := snd r;
            App.created := App.created st + 1;
            App.zf := zf' |}
  end.

Fixpoint loop (filename_col : option pystr) (st : App.loop_state)
  (rows : list (label * Series)) : result App.loop_state :=
  match rows with
  | [] => Ok st
  | ir :: rest => st' <- body filename_col st ir ;; loop filename_col st' rest
  end.

(** The run on a frame whose index is [index]. *)
Definition convert (index : list label) (df : DataFrame) : result App.report :=
  st <- loop (App.find_filename_col (columns df)) App.initial
          (iterrows_labelled index df) ;;
  Ok {| App.rowsProcessed := len_df df;
        App.filesCreated := App.created st;
        App.archive := App.zf st |}.

End Run.

(** [i + 1] for an integer label, those of the default [RangeIndex]
    included. *)
Definition int_succ (i : N) : option pystr := Some (str_of_int (i + 1)).

End AppScript.

(** ** Variant [txt_to_csv.py] *)

Module TxtToCsv.

(** The characters [INVALID_FILENAME_CHARS] keeps:
    [A-Za-z0-9], the Hangul syllables U+AC00..U+D7A3, space and [_-.()[]]. *)
Definition allowed (c : N) : bool :=
  ((65 <=? c) && (c <=? 90)) || ((97 <=? c) && (c <=? 122))
  || ((48 <=? c) && (c <=? 57))
  || ((44032 <=? c) && (c <=? 55203))
  || (c =? 32) || (c =? 95) || (c =? 45) || (c =? 46)
  || (c =? 40) || (c =? 41) || (c =? 91) || (c =? 93).

Definition invalid (c : N) : bool := negb (allowed c).

Definition sanitize_filename (name : pystr) : pystr :=
  let name := strip name in
  let name := collapse_ws name in
  let name := sub_class invalid name in
  match name with
  | [] => lit "untitled"
  | _ => name
  end.

Definition ensure_txt_suffix (name : pystr) : pystr :=
  if endswith (lower name) (lit ".txt") then name else name ++ lit ".txt".

Fixpoint first_nonempty_str (series_like : list cell) : option pystr :=
  match series_like with
  | [] => None
  | CStr val :: rest =>
      match strip val with
      | [] => first_nonempty_str rest
      | _ => Some (strip val)
      end
  | _ :: rest => first_nonempty_str rest
  end.

Inductive text_mode_t :=
| FromColumn          (* the first radio option *)
| FirstNonEmpty.      (* the second radio option *)

(** The label of the select box entry that stands for no filename column:
    an opening parenthesis, U+C5C6, U+C74C, a closing parenthesis. *)
Definition NO_COLUMN : pystr := [40; 50630; 51020; 41].

Record options := {
  text_mode : text_mode_t;
  text_col : option pystr;
  filename_col : pystr;
  prefix : pystr;
  suffix : pystr
}.

(** Lines 149-153. *)
Definition select_text (o : options) (row : Series) : option pystr :=
  match text_mode o with
  | FromColumn =>
      match Series_get row (text_col o) with
      | Some (CStr val) =>
          match strip val with
          | [] => None
          | _ => Some val
          end
      | _ => None
      end
  | FirstNonEmpty => first_nonempty_str (values row)
  end.

(** [a or b] on strings. *)
Definition py_or (a b : pystr) : pystr :=
  match a with
  | [] => b
  | _ => a
  end.

Definition row_name (i : N) : pystr := lit "row_" ++ str_of_int (i + 1).

(** Lines 159-163: the name before prefix and suffix. *)
Definition base_name (o : options) (i : N) (row : Series) : pystr :=
  if pystr_eqb (filename_col o) NO_COLUMN
  then row_name i
  else
    let raw_name :=
      strip (py_str (default (CStr []) (lookup_label row (filename_col o)))) in
    py_or (sanitize_filename raw_name) (row_name i).

(** Lines 159-166. *)
Definition resolve_filename (o : options) (i : N) (row : Series) : pystr :=
  ensure_txt_suffix (prefix o ++ base_name o i row ++ suffix o).

Record loop_state := {
  used_names : gmap pystr N;
  zf : list zip_entry
}.

Definition initial : loop_state := {| used_names := ∅; zf := [] |}.

(** [used_names[base]] of a [Counter]: [0] for an absent key. *)
Definition count_of (used : gmap pystr N) (base : pystr) : N :=
  default 0 (used !! base).

(** Lines 169-172. *)
Definition rename (used : gmap pystr N) (fname : pystr)
  : pystr * gmap pystr N :=
  let '(base, ext) := splitext fname in
  let n := count_of used base + 1 in
  let used := <[base := n]> used in
  if 1 <? n
  then (base ++ lit "_" ++ str_of_int n ++ ext, used)
  else (fname, used).

(** One iteration of [for i, row in df.iterrows()]. *)
Definition body (o : options) (st : loop_state) (ir : N * Series)
  : loop_state :=
  let '(i, row) := ir in
  match select_text o row with
  | None => st
  | Some [] => st
  | Some text_value =>
      let fname := resolve_filename o i row in
      let r := rename (used_names st) fname in
      {| used_names := snd r;
         zf := zf st ++ [ {| entry_name := fst r; entry_text := text_value |} ] |}
  end.

Definition loop (o : options) (st : loop_state) (rows : list (N * Series))
  : loop_state :=
  fold_left (body o) rows st.

(** The success message reports [len(df)]; the archive is offered for
    download. *)
Record report := {
  rowsProcessed : N;
  archive : list zip_entry
}.

Definition convert (o : options) (df : DataFrame) : report :=
  {| rowsProcessed := len_df df;
     archive := zf (loop o initial (iterrows df)) |}.

(** The script around the loop: an empty frame stops it with a warning. *)
Inductive outcome :=
| Stopped
| Archive (r : report).

Definition script (o : options) (df : DataFrame) : outcome :=
  if df_empty df then Stopped else Archive (convert o df).

End TxtToCsv.


(** ** Reading a run *)

(** The entry names of an archive, in the order written. *)
Definition names (l : list zip_entry) : list pystr := List.map entry_name l.

(** The two halves [os.path.splitext] gives. *)
Definition stem (name : pystr) : pystr := fst (splitext name).
Definition extension (name : pystr) : pystr := snd (splitext name).

(** The names the rows with a text resolve to in [app.py], in row order,
    before [ensure_unique]. *)
Fixpoint App_resolved (filename_col : option pystr) (rows : list (N * Series))
  : result (list pystr) :=
  match rows with
  | [] => Ok []
  | (i, row) :: rest =>
      match App.first_string_cell (values row) with
      | None => App_resolved filename_col rest
      | Some _ =>
          n <- App.resolve filename_col i row ;;
          ns <- App_resolved filename_col rest ;;
          Ok (n :: ns)
      end
  end.

(** The rows for which [app.py] finds no text. *)
Definition App_absent (rows : list (N * Series)) : list (N * Series) :=
  List.filter
    (fun ir => match App.first_string_cell (values (snd ir)) with
               | None => true
               | Some _ => false
               end) rows.

(** The names the rows with a text resolve to in [txt_to_csv.py], in row
    order, before the [Counter] renaming. *)
Fixpoint TxtToCsv_resolved (o : TxtToCsv.options) (rows : list (N * Series))
  : list pystr :=
  match rows with
  | [] => []
  | (i, row) :: rest =>
      match TxtToCsv.select_text o row with
      | None => TxtToCsv_resolved o rest
      | Some [] => TxtToCsv_resolved o rest
      | Some _ => TxtToCsv.resolve_filename o i row :: TxtToCsv_resolved o rest
      end
  end.

(** The rows for which [txt_to_csv.py] selects no text. *)
Definition TxtToCsv_absent (o : TxtToCsv.options) (rows : list (N * Series))
  : list (N * Series) :=
  List.filter
    (fun ir => match TxtToCsv.select_text o (snd ir) with
               | None => true
               | Some _ => false
               end) rows.

(** How often [x] occurs in [l]. *)
Definition occurrences (x : pystr) (l : list pystr) : N :=
  N.of_nat (length (List.filter (fun y => pystr_eqb y x) l)).

(** The text selector in the words of the specification: the first cell, in
    column order, that is a string and is not empty once trimmed. *)
Definition is_text_cell (v : cell) : bool :=
  match v with
  | CStr s => match strip s with [] => false | _ => true end
  | _ => false
  end.

Definition spec_first_text (row : list cell) : option pystr :=
  match List.find is_text_cell row with
  | Some (CStr s) => Some s
  | _ => None
  end.

(** ** Shapes of strings used in the proofs *)

(** The string starts with whitespace. *)
Definition head_space (s : pystr) : bool :=
  match s with
  | [] => false
  | c :: _ => isspace c
  end.

(** Neither end of the string is whitespace. *)
Definition trimmed (s : pystr) : Prop :=
  head_space s = false /\ rstrip s = s.

(** Every whitespace code point is a single space that does not follow
    another whitespace code point ([prev] tells what came before). *)
Fixpoint spaced (prev : bool) (s : pystr) : bool :=
  match s with
  | [] => true
  | c :: r =>
      if isspace c
      then (c =? SPACE) && negb prev && spaced true r
      else spaced false r
  end.

(** ** Invariants of the two loops *)

(** One call of [ensure_unique] seen from outside: [before] are the names
    emitted so far, [name] the name asked for, [e] the name returned. *)
Definition App_step (before : list pystr) (name e : pystr) : Prop :=
  (e ∉ before)
  /\ (name ∉ before -> e = name)
  /\ (name ∈ before ->
      exists i, 2 <= i /\ e = App.candidate (stem name) (extension name) i).

(** A run of [ensure_unique] over the names [R] in row order, starting
    after the names [before], emits the names [E]. *)
Fixpoint App_trace (before R E : list pystr) : Prop :=
  match R, E with
  | [], [] => True
  | name :: R', e :: E' =>
      App_step before name e /\ App_trace (before ++ [e]) R' E'
  | _, _ => False
  end.

(** The set of used names is the set of entry names written so far, which
    are pairwise different, and [created] counts them. *)
Definition App_inv (st : App.loop_state) : Prop :=
  App.used_names st = list_to_set (names (App.zf st))
  /\ NoDup (names (App.zf st))
  /\ App.created st = N.of_nat (length (App.zf st)).

(** The name [txt_to_csv.py] writes for a row that resolves to [name] when
    the rows before it resolved to [before]. *)
Definition TxtToCsv_emitted (before : list pystr) (name : pystr) : pystr :=
  let n := occurrences (stem name) (List.map stem before) + 1 in
  if 1 <? n
  then stem name ++ lit "_" ++ str_of_int n ++ extension name
  else name.

(** The names [txt_to_csv.py] writes for rows that resolve to [R], in row
    order, after rows that resolved to [before]. *)
Fixpoint TxtToCsv_emit_all (before R : list pystr) : list pystr :=
  match R with
  | [] => []
  | name :: R' =>
      TxtToCsv_emitted before name :: TxtToCsv_emit_all (before ++ [name]) R'
  end.

(** The [Counter] holds, for every stem, the number of rows that resolved to
    it so far. *)
Definition TxtToCsv_inv (used : gmap pystr N) (before : list pystr) : Prop :=
  forall s, TxtToCsv.count_of used s = occurrences s (List.map stem before).

(** ** Sample inputs *)

(** Three rows whose filename cells are [x], [x] and [x_2]. *)
Definition collide_df : DataFrame :=
  {| columns := [lit "filename"; lit "text"];
     data := [ [CStr (lit "x"); CStr (lit "first")];
               [CStr (lit "x"); CStr (lit "second")];
               [CStr (lit "x_2"); CStr (lit "third")] ] |}.

Definition plain_options : TxtToCsv.options :=
  {| TxtToCsv.text_mode := TxtToCsv.FirstNonEmpty;
     TxtToCsv.text_col := None;
     TxtToCsv.filename_col := lit "filename";
     TxtToCsv.prefix := [];
     TxtToCsv.suffix := [] |}.

Definition report_row : Series := [(lit "filename", CStr (lit "report.TXT"))].

Definition missing_row : Series := [(lit "filename", CMissing)].

Definition padded_row : list cell := [CNum (lit "7"); CStr (lit " hi ")].

(** A prefix and a suffix of plain characters. *)
Definition tagged_options : TxtToCsv.options :=
  {| TxtToCsv.text_mode := TxtToCsv.FirstNonEmpty;
     TxtToCsv.text_col := None;
     TxtToCsv.filename_col := lit "filename";
     TxtToCsv.prefix := lit "out_";
     TxtToCsv.suffix := lit "_v1" |}.

(** A prefix with a path separator. *)
Definition folder_options : TxtToCsv.options :=
  {| TxtToCsv.text_mode := TxtToCsv.FirstNonEmpty;
     TxtToCsv.text_col := None;
     TxtToCsv.filename_col := lit "filename";
     TxtToCsv.prefix := lit "a/";
     TxtToCsv.suffix := [] |}.

(** A name free of path separators, the drive marker, the glob and quote
    characters and CR, LF, TAB: the characters of [App.unsafe_chars]. *)
Definition legal (name : pystr) : Prop :=
  Forall (fun c => App.unsafe c = false) name.

(** The property of the first occurrence as the specification words it: a
    row whose resolved name no earlier row resolved to is written under that
    name. *)
Definition first_occurrence_keeps_name (R E : list pystr) : Prop :=
  forall (k : nat) (name : pystr),
    R !! k = Some name -> name ∉ take k R -> E !! k = Some name.

(** ** Further readings of a run *)

(** The entry contents of an archive, in the order written. *)
Definition texts (l : list zip_entry) : list pystr := List.map entry_text l.

(** The texts [app.py] selects, one for each row that has one, in row
    order. *)
Fixpoint App_selected (rows : list (N * Series)) : list pystr :=
  match rows with
  | [] => []
  | (i, row) :: rest =>
      match App.first_string_cell (values row) with
      | Some text => text :: App_selected rest
      | None => App_selected rest
      end
  end.

(** The texts [txt_to_csv.py] selects, one for each row that has one, in row
    order. *)
Fixpoint TxtToCsv_selected (o : TxtToCsv.options) (rows : list (N * Series))
  : list pystr :=
  match rows with
  | [] => []
  | (i, row) :: rest =>
      match TxtToCsv.select_text o row with
      | Some text => text :: TxtToCsv_selected o rest
      | None => TxtToCsv_selected o rest
      end
  end.

(** A name fit for an archive entry: not empty and free of the characters of
    [App.unsafe_chars]. *)
Definition sound_name (name : pystr) : Prop := name <> [] /\ legal name.

(** Some character of [w] is not a dot. *)
Definition has_non_dot (w : pystr) : bool := existsb (fun x => negb (x =? DOT)) w.

(** An ASCII digit. *)
Definition is_digit (c : N) : Prop := 48 <= c <= 57.

(** The name of the row at index [i] when no filename column is used. *)
Definition numbered_name (i : N) : pystr :=
  lit "row_" ++ str_of_int (i + 1) ++ lit ".txt".

(** The row-number names of the rows for which [app.py] finds a text. *)
Fixpoint App_row_names (rows : list (N * Series)) : list pystr :=
  match rows with
  | [] => []
  | (i, row) :: rest =>
      match App.first_string_cell (values row) with
      | Some _ => numbered_name i :: App_row_names rest
      | None => App_row_names rest
      end
  end.

(** The row-number names of the rows for which [txt_to_csv.py] selects a
    text. *)
Fixpoint TxtToCsv_row_names (o : TxtToCsv.options) (rows : list (N * Series))
  : list pystr :=
  match rows with
  | [] => []
  | (i, row) :: rest =>
      match TxtToCsv.select_text o row with
      | Some _ => numbered_name i :: TxtToCsv_row_names o rest
      | None => TxtToCsv_row_names o rest
      end
  end.

(** Two rows with different filename cells. *)
Definition distinct_df : DataFrame :=
  {| columns := [lit "filename"; lit "text"];
     data := [ [CStr (lit "a"); CStr (lit "one")];
               [CStr (lit "b"); CStr (lit "two")] ] |}.

(** The same rows without a filename column. *)
Definition unnamed_df : DataFrame :=
  {| columns := [lit "text"; lit "n"];
     data := [ [CStr (lit "one"); CNum (lit "1")];
               [CMissing; CNum (lit "2")];
               [CStr (lit "three"); CNum (lit "3")] ] |}.

(** No filename column selected, default prefix and suffix. *)
Definition numbered_options : TxtToCsv.options :=
  {| TxtToCsv.text_mode := TxtToCsv.FirstNonEmpty;
     TxtToCsv.text_col := None;
     TxtToCsv.filename_col := TxtToCsv.NO_COLUMN;
     TxtToCsv.prefix := [];
     TxtToCsv.suffix := [] |}.

(** ** Reading the upload and offering the columns *)

(** The encodings the two scripts name. *)
Inductive encoding :=
| utf_8
| cp949
| euc_kr
| latin1.

Definition encoding_name (enc : encoding) : pystr :=
  match enc with
  | utf_8 => lit "utf-8"
  | cp949 => lit "cp949"
  | euc_kr => lit "euc-kr"
  | latin1 => lit "latin1"
  end.

(** What one call of [pd.read_csv] on the upload does: it returns a frame or
    raises; [unicode] tells a [UnicodeDecodeError] from any other exception,
    [message] is [str(e)]. *)
Inductive parse :=
| Parsed (df : DataFrame)
| Failed (unicode : bool) (message : pystr).

(** [sep.join(parts)] *)
Fixpoint join (sep : pystr) (parts : list pystr) : pystr :=
  match parts with
  | [] => []
  | [p] => p
  | p :: rest => p ++ sep ++ join sep rest
  end.

Module AppFront.

Section Reader.

(** [pd.read_csv(file, encoding=enc, sep=sep)] on the uploaded file. *)
Variable pd_read_csv : encoding -> option pystr -> parse.

(** The separator [pd.read_csv] uses when none is passed. *)
Definition DEFAULT_SEP : option pystr := Some (lit ",").

(** [read_csv_safely]: [None] after [st.error]. *)
Definition read_csv_safely : option DataFrame :=
  match pd_read_csv utf_8 DEFAULT_SEP with
  | Parsed df => Some df
  | Failed true _ =>
      match pd_read_csv latin1 DEFAULT_SEP with
      | Parsed df => Some df
      | Failed _ _ => None
      end
  | Failed false _ => None
  end.

End Reader.

End AppFront.

Module TxtToCsvFront.

(** The first entry of the encoding select box, or one of the encodings. *)
Inductive encoding_choice :=
| AutoDetect
| Named (enc : encoding).

(** How [safe_read_csv] ends: with a frame, with its own [RuntimeError], or
    with the exception of [pd.read_csv]. *)
Inductive read_outcome :=
| Returned (df : DataFrame)
| RuntimeError (message : pystr)
| Propagated (message : pystr).

(** The text before the list of encodings in the [RuntimeError]. *)
Definition FAILED_PREFIX : pystr :=
  [67; 83; 86; 47484; 32; 51069; 45716; 32; 45936; 32; 49892; 54056; 54664;
   49845; 45768; 45796; 46; 32; 49884; 46020; 54620; 32; 51064; 53076; 46377;
   58; 32].

(** The encodings the automatic mode goes through. *)
Definition chain : list encoding := [utf_8; cp949; euc_kr; latin1].

(** [sep_choice or None] *)
Definition sep_or_none (sep_choice : option pystr) : option pystr :=
  match sep_choice with
  | Some [] => None
  | other => other
  end.

Section Reader.

(** [pd.read_csv(file, encoding=enc, sep=sep)] on the uploaded file. *)
Variable pd_read_csv : encoding -> option pystr -> parse.

(** The [for enc in (...)] loop; [inr tried] when it runs to its end. *)
Fixpoint try_encodings (encs : list encoding) (sep : option pystr)
  (tried : list (encoding * pystr)) : DataFrame + list (encoding * pystr) :=
  match encs with
  | [] => inr tried
  | enc :: rest =>
      match pd_read_csv enc sep with
      | Parsed df => inl df
      | Failed _ message => try_encodings rest sep (tried ++ [(enc, message)])
      end
  end.

Definition safe_read_csv (choice : encoding_choice) (sep_choice : option pystr)
  : read_outcome :=
  match choice with
  | AutoDetect =>
      match try_encodings chain (sep_or_none sep_choice) [] with
      | inl df => Returned df
      | inr tried =>
          RuntimeError
            (FAILED_PREFIX
             ++ join (lit ", ") (List.map (fun t => encoding_name (fst t)) tried))
      end
  | Named enc =>
      match pd_read_csv enc (sep_or_none sep_choice) with
      | Parsed df => Returned df
      | Failed _ message => Propagated message
      end
  end.

End Reader.

(** Line 123: the columns whose lowered label is [filename], or all columns
    when there is none. *)
Definition candidate_filename_cols (cols : list pystr) : list pystr :=
  match List.filter (fun c => pystr_eqb (lower c) (lit "filename")) cols with
  | [] => cols
  | named => named
  end.

(** Line 124: the entries of the filename select box. *)
Definition filename_options (cols : list pystr) : list pystr :=
  TxtToCsv.NO_COLUMN :: candidate_filename_cols cols.

End TxtToCsvFront.

(** A reader for which [utf-8] cannot decode the upload, [cp949] reads it
    and [latin1] reads it differently. *)
Definition legacy_reader (enc : encoding) (sep : option pystr) : parse :=
  match enc with
  | utf_8 => Failed true (lit "invalid start byte")
  | cp949 => Parsed distinct_df
  | euc_kr => Failed false (lit "tokenizing")
  | latin1 => Parsed unnamed_df
  end.

(** A reader for which nothing parses the upload. *)
Definition failing_reader (enc : encoding) (sep : option pystr) : parse :=
  Failed false (lit "tokenizing").

(** The [RuntimeError] text when every encoding fails. *)
Definition ALL_FAILED : pystr :=
  TxtToCsvFront.FAILED_PREFIX ++ lit "utf-8, cp949, euc-kr, latin1".

(** ** Runs with an index and a [zipfile] of their own *)

(** Whether [zf.writestr] takes every call of [calls]. *)
Definition all_written (writestr_returns : pystr -> pystr -> bool)
  (calls : list zip_entry) : bool :=
  forallb (fun e => writestr_returns (entry_name e) (entry_text e)) calls.

(** How a run of [app.py] that makes the calls [calls] ends on a frame [df]:
    with its report when [zf.writestr] takes them all, with what
    [zf.writestr] raises otherwise. *)
Definition run_outcome (writestr_returns : pystr -> pystr -> bool)
  (df : DataFrame) (calls : list zip_entry) : result App.report :=
  if all_written writestr_returns calls
  then Ok {| App.rowsProcessed := len_df df;
             App.filesCreated := N.of_nat (length calls);
             App.archive := calls |}
  else Raise WritestrError.

(** Two cells that differ after a NUL only. *)
Definition nul_df : DataFrame :=
  {| columns := [lit "filename"];
     data := [ [CStr [97; 0; 98]]; [CStr [97; 0; 99]] ] |}.

(** Two rows with a text under one index label. *)
Definition repeated_df : DataFrame :=
  {| columns := [lit "text"];
     data := [ [CStr (lit "one")]; [CStr (lit "two")] ] |}.

(** The labels of the default [RangeIndex] of a frame. *)
Definition RangeIndex (df : DataFrame) : list N :=
  List.map N.of_nat (seq 0 (length (data df))).

(** Line 137: the entries of the text select box. *)
Definition text_options (cols : list pystr) : list pystr := cols.

(** The text of line 151 for the cell [row.get] returns. *)
Definition text_of_cell (v : cell) : option pystr :=
  match v with
  | CStr val =>
      match strip val with
      | [] => None
      | _ => Some val
      end
  | _ => None
  end.

(** Text selection from the column named text. *)
Definition column_options : TxtToCsv.options :=
  {| TxtToCsv.text_mode := TxtToCsv.FromColumn;
     TxtToCsv.text_col := Some (lit "text");
     TxtToCsv.filename_col := TxtToCsv.NO_COLUMN;
     TxtToCsv.prefix := [];
     TxtToCsv.suffix := [] |}.

(** * Proofs *)

(** * Whitespace trimming *)

Lemma isspace_SPACE : isspace SPACE = true.
Proof. reflexivity. Qed.

Lemma isspace_UNDERSCORE : isspace UNDERSCORE = false.
Proof. reflexivity. Qed.

Lemma lstrip_head s : head_space (lstrip s) = false.
Proof.
  induction s as [|c r IH]; simpl; [reflexivity|].
  destruct (isspace c) eqn:E; [exact IH | simpl; exact E].
Qed.

Lemma lstrip_fixed s : head_space s = false -> lstrip s = s.
Proof.
  destruct s as [|c r]; simpl; [reflexivity|].
  intros ->. reflexivity.
Qed.

Lemma rstrip_idem s : rstrip (rstrip s) = rstrip s.
Proof.
  induction s as [|c r IH]; simpl; [reflexivity|].
  destruct (rstrip r) as [|x r'] eqn:E.
  - destruct (isspace c) eqn:Ec; simpl; [reflexivity|]. rewrite Ec. reflexivity.
  - change (rstrip (c :: x :: r')) with
      (match rstrip (x :: r') with
       | [] => if isspace c then [] else [c]
       | y :: t => c :: y :: t
       end).
    rewrite IH. reflexivity.
Qed.

Lemma rstrip_head s : head_space s = false -> head_space (rstrip s) = false.
Proof.
  destruct s as [|c r]; simpl; [reflexivity|].
  intros E. destruct (rstrip r); [rewrite E|]; simpl; exact E.
Qed.

Lemma strip_trimmed s : trimmed (strip s).
Proof.
  split.
  - apply rstrip_head, lstrip_head.
  - apply rstrip_idem.
Qed.

Lemma trimmed_strip s : trimmed s -> strip s = s.
Proof.
  intros [Hh Hr]. unfold strip. rewrite (lstrip_fixed _ Hh). exact Hr.
Qed.

Lemma rstrip_snoc s c : isspace c = false -> rstrip (s ++ [c]) = s ++ [c].
Proof.
  intros Ec. induction s as [|x r IH]; simpl.
  - rewrite Ec. reflexivity.
  - rewrite IH. destruct r; reflexivity.
Qed.

Lemma rstrip_fixed_inv s :
  rstrip s = s -> s = [] \/ exists r c, s = r ++ [c] /\ isspace c = false.
Proof.
  induction s as [|x r IH]; [left; reflexivity|].
  simpl. intros H. right.
  destruct (rstrip r) as [|y t] eqn:E.
  - destruct (isspace x) eqn:Ex; [discriminate|].
    injection H as <-. exists [], x. split; [reflexivity | exact Ex].
  - injection H as H. destruct (IH H) as [->|(r' & c & -> & Hc)]; [discriminate|].
    exists (x :: r'), c. split; [reflexivity | exact Hc].
Qed.

Lemma trimmed_nil : trimmed [].
Proof. split; reflexivity. Qed.

Lemma trimmed_snoc s c :
  head_space (s ++ [c]) = false -> isspace c = false -> trimmed (s ++ [c]).
Proof. intros H Hc. split; [exact H | apply rstrip_snoc, Hc]. Qed.

(** * Replacing a character class by an underscore *)

Section SubClass.
Variable cls : N -> bool.
Hypothesis cls_underscore : cls UNDERSCORE = false.

Lemma sub_class_clean s : Forall (fun c => cls c = false) (sub_class cls s).
Proof.
  unfold sub_class. apply List.Forall_forall. intros c Hin.
  apply List.in_map_iff in Hin as (x & <- & _).
  destruct (cls x) eqn:E; [exact cls_underscore | exact E].
Qed.

Lemma sub_class_fixed s :
  Forall (fun c => cls c = false) s -> sub_class cls s = s.
Proof.
  unfold sub_class. induction 1 as [|c r Hc _ IH]; simpl; [reflexivity|].
  rewrite Hc, IH. reflexivity.
Qed.

Lemma sub_class_not_space c :
  isspace c = false -> isspace (if cls c then UNDERSCORE else c) = false.
Proof. intros H. destruct (cls c); [reflexivity | exact H]. Qed.

Lemma sub_class_trimmed s : trimmed s -> trimmed (sub_class cls s).
Proof.
  intros [Hh Hr]. destruct (rstrip_fixed_inv s Hr) as [->|(r & c & -> & Hc)].
  - apply trimmed_nil.
  - unfold sub_class. rewrite List.map_app. simpl. apply trimmed_snoc.
    + destruct r as [|x r]; simpl in *; apply sub_class_not_space; assumption.
    + apply sub_class_not_space, Hc.
Qed.

(** A class that keeps the space leaves single spacing as it is. *)
Lemma sub_class_spaced b s :
  cls SPACE = false -> spaced b s = true -> spaced b (sub_class cls s) = true.
Proof.
  intros Hsp. revert b. induction s as [|c r IH]; intros b; simpl; [reflexivity|].
  destruct (isspace c) eqn:Ec.
  - rewrite !andb_true_iff. intros [[Hc Hb] Hr].
    apply N.eqb_eq in Hc. subst c. rewrite Hsp, isspace_SPACE.
    rewrite Hb, (IH _ Hr). reflexivity.
  - intros Hr. rewrite (sub_class_not_space _ Ec). apply IH, Hr.
Qed.
End SubClass.

(** * Collapsing whitespace runs *)

Lemma collapse_spaced b s : spaced b (collapse_from b s) = true.
Proof.
  revert b. induction s as [|c r IH]; intros b; simpl; [reflexivity|].
  destruct (isspace c) eqn:Ec.
  - destruct b; [apply IH|]. simpl. rewrite IH. reflexivity.
  - simpl. rewrite Ec. apply IH.
Qed.

Lemma collapse_fixed b s : spaced b s = true -> collapse_from b s = s.
Proof.
  revert b. induction s as [|c r IH]; intros b; simpl; [reflexivity|].
  destruct (isspace c) eqn:Ec.
  - rewrite !andb_true_iff. intros [[Hc Hb] Hr].
    apply N.eqb_eq in Hc. apply negb_true_iff in Hb. subst b c.
    rewrite (IH _ Hr). reflexivity.
  - intros Hr. rewrite (IH _ Hr). reflexivity.
Qed.

Lemma collapse_Forall (P : N -> Prop) b s :
  P SPACE -> Forall P s -> Forall P (collapse_from b s).
Proof.
  intros Hsp H. revert b. induction H as [|c r Hc _ IH]; intros b; simpl.
  - constructor.
  - destruct (isspace c); [destruct b|]; try constructor; auto.
Qed.

Lemma collapse_snoc b s c :
  isspace c = false -> collapse_from b (s ++ [c]) = collapse_from b s ++ [c].
Proof.
  intros Hc. revert b. induction s as [|x r IH]; intros b; simpl.
  - rewrite Hc. reflexivity.
  - destruct (isspace x); [destruct b|]; rewrite IH; reflexivity.
Qed.

Lemma collapse_trimmed s : trimmed s -> trimmed (collapse_ws s).
Proof.
  intros [Hh Hr]. destruct (rstrip_fixed_inv s Hr) as [->|(r & c & -> & Hc)].
  - apply trimmed_nil.
  - unfold collapse_ws. rewrite collapse_snoc by exact Hc.
    apply trimmed_snoc; [|exact Hc].
    destruct r as [|x r]; simpl in *; [exact Hc|].
    rewrite Hh. simpl. exact Hh.
Qed.

(** * The sanitizers *)

Lemma unsafe_UNDERSCORE : App.unsafe UNDERSCORE = false.
Proof. reflexivity. Qed.

Lemma invalid_UNDERSCORE : TxtToCsv.invalid UNDERSCORE = false.
Proof. reflexivity. Qed.

Lemma invalid_SPACE : TxtToCsv.invalid SPACE = false.
Proof. reflexivity. Qed.

(** What [App.sanitize_filename] computes before the empty check. *)
Lemma App_sanitize_core_shape x :
  let s := collapse_ws (sub_class App.unsafe (strip x)) in
  trimmed s /\ Forall (fun c => App.unsafe c = false) s /\ spaced false s = true.
Proof.
  simpl. split; [|split].
  - apply collapse_trimmed, sub_class_trimmed, strip_trimmed.
  - apply collapse_Forall; [reflexivity|].
    apply sub_class_clean, unsafe_UNDERSCORE.
  - apply collapse_spaced.
Qed.

Lemma App_sanitize_fixed s :
  trimmed s -> Forall (fun c => App.unsafe c = false) s -> spaced false s = true ->
  s <> [] -> App.sanitize_filename s = s.
Proof.
  intros Ht Hc Hs Hne. unfold App.sanitize_filename.
  rewrite (trimmed_strip _ Ht), (sub_class_fixed _ _ Hc).
  unfold collapse_ws. rewrite (collapse_fixed _ _ Hs).
  destruct s; [contradiction | reflexivity].
Qed.

Lemma TxtToCsv_sanitize_core_shape x :
  let s := sub_class TxtToCsv.invalid (collapse_ws (strip x)) in
  trimmed s /\ Forall (fun c => TxtToCsv.invalid c = false) s /\ spaced false s = true.
Proof.
  simpl. split; [|split].
  - apply sub_class_trimmed, collapse_trimmed, strip_trimmed.
  - apply sub_class_clean, invalid_UNDERSCORE.
  - apply sub_class_spaced; [exact invalid_SPACE | apply collapse_spaced].
Qed.

Lemma TxtToCsv_sanitize_fixed s :
  trimmed s -> Forall (fun c => TxtToCsv.invalid c = false) s ->
  spaced false s = true -> s <> [] -> TxtToCsv.sanitize_filename s = s.
Proof.
  intros Ht Hc Hs Hne. unfold TxtToCsv.sanitize_filename.
  rewrite (trimmed_strip _ Ht). unfold collapse_ws.
  rewrite (collapse_fixed _ _ Hs), (sub_class_fixed _ _ Hc).
  destruct s; [contradiction | reflexivity].
Qed.

(** C9. Sanitizing is idempotent in both variants: sanitizing a sanitized
    name changes nothing. *)
Theorem sanitize_filename_idempotent (x : pystr) :
  App.sanitize_filename (App.sanitize_filename x) = App.sanitize_filename x
  /\ TxtToCsv.sanitize_filename (TxtToCsv.sanitize_filename x)
     = TxtToCsv.sanitize_filename x.
Proof.
  split.
  - destruct (App_sanitize_core_shape x) as (Ht & Hc & Hs).
    unfold App.sanitize_filename at 2 3.
    destruct (collapse_ws (sub_class App.unsafe (strip x))) as [|c r] eqn:E.
    + vm_compute. reflexivity.
    + apply App_sanitize_fixed; [assumption .. | discriminate].
  - destruct (TxtToCsv_sanitize_core_shape x) as (Ht & Hc & Hs).
    unfold TxtToCsv.sanitize_filename at 2 3.
    destruct (sub_class TxtToCsv.invalid (collapse_ws (strip x))) as [|c r] eqn:E.
    + vm_compute. reflexivity.
    + apply TxtToCsv_sanitize_fixed; [assumption .. | discriminate].
Qed.

(** * Decimal rendering *)

Lemma lit_inj a b : lit a = lit b -> a = b.
Proof.
  unfold lit. intros H.
  rewrite <- (string_of_list_ascii_of_string a), <- (string_of_list_ascii_of_string b).
  f_equal. revert H. generalize (list_ascii_of_string a) (list_ascii_of_string b).
  induction l as [|x l IH]; intros [|y l'] H; simpl in H; try discriminate; [reflexivity|].
  injection H as Hxy Hl. f_equal; [|apply IH, Hl].
  rewrite <- (ascii_N_embedding x), <- (ascii_N_embedding y), Hxy. reflexivity.
Qed.

Lemma str_of_int_inj a b : str_of_int a = str_of_int b -> a = b.
Proof.
  unfold str_of_int. intros H. apply lit_inj in H.
  assert (Some (N.to_uint a) = Some (N.to_uint b)) as E.
  { rewrite <- !NilEmpty.usu, H. reflexivity. }
  injection E as E.
  rewrite <- (Unsigned.of_to a), <- (Unsigned.of_to b), E. reflexivity.
Qed.

Lemma candidate_inj (base ext : pystr) (i j : N) :
  App.candidate base ext i = App.candidate base ext j -> i = j.
Proof.
  unfold App.candidate. intros H.
  apply app_inv_head in H. apply app_inv_head in H. apply app_inv_tail in H.
  apply str_of_int_inj, H.
Qed.

(** * The probe loop of [ensure_unique] *)

(** Among the candidates numbered from [i] on, one of the first
    [size used + 1] is unused. *)
Lemma candidate_unused (base ext : pystr) (k : nat) :
  forall (used : gset pystr) (i : N),
    (size used <= k)%nat ->
    exists n : nat, (n <= k)%nat /\ App.candidate base ext (i + N.of_nat n) ∉ used.
Proof.
  induction k as [|k IH]; intros used i Hk.
  - exists 0%nat. split; [lia|].
    assert (used = ∅) as -> by (apply leibniz_equiv, size_empty_iff; lia).
    apply not_elem_of_empty.
  - destruct (decide (App.candidate base ext i ∈ used)) as [Hin|Hout].
    + destruct (IH (used ∖ {[App.candidate base ext i]}) (i + 1)) as (n & Hn & Hfree).
      { assert (size (used ∖ {[App.candidate base ext i]}) + 1 = size used)%nat; [|lia].
        rewrite size_difference by set_solver. rewrite size_singleton.
        assert (size used <> 0)%nat; [|lia].
        intros E. apply size_empty_iff in E. set_solver. }
      exists (S n). split; [lia|].
      replace (i + N.of_nat (S n)) with (i + 1 + N.of_nat n) by lia.
      intros Hc. apply Hfree. apply elem_of_difference. split; [exact Hc|].
      rewrite elem_of_singleton. intros E. apply candidate_inj in E. lia.
    + exists 0%nat. split; [lia|]. rewrite N.add_0_r. exact Hout.
Qed.

(** With fuel beyond the distance to an unused candidate the loop returns
    the first unused candidate. *)
Lemma probe_reaches (base ext : pystr) (used : gset pystr) (n : nat) :
  forall (fuel : nat) (i : N),
    App.candidate base ext (i + N.of_nat n) ∉ used ->
    (n < fuel)%nat ->
    exists j, (i <= j) /\ (App.candidate base ext j ∉ used)
              /\ (App.probe fuel base ext used i = Some (App.candidate base ext j)).
Proof.
  induction n as [|n IH]; intros fuel i Hfree Hfuel.
  - rewrite N.add_0_r in Hfree. destruct fuel as [|fuel]; [lia|].
    exists i. simpl. rewrite bool_decide_eq_false_2 by exact Hfree.
    split; [lia | split; [exact Hfree | reflexivity]].
  - destruct fuel as [|fuel]; [lia|]. simpl.
    destruct (decide (App.candidate base ext i ∈ used)) as [Hin|Hout].
    + rewrite bool_decide_eq_true_2 by exact Hin.
      destruct (IH fuel (i + 1)) as (j & Hj & Hjfree & Hp); [|lia|].
      { replace (i + 1 + N.of_nat n) with (i + N.of_nat (S n)) by lia. exact Hfree. }
      exists j. split; [lia | split; assumption].
    + rewrite bool_decide_eq_false_2 by exact Hout.
      exists i. split; [lia | split; [exact Hout | reflexivity]].
Qed.

Lemma probe_more_fuel (base ext : pystr) (used : gset pystr) (c : pystr) (k : nat) :
  forall (fuel : nat) (i : N),
    App.probe fuel base ext used i = Some c ->
    App.probe (fuel + k) base ext used i = Some c.
Proof.
  induction fuel as [|fuel IH]; intros i; simpl; [discriminate|].
  destruct (bool_decide _); [apply IH | exact id].
Qed.

Lemma probe_total (base ext : pystr) (used : gset pystr) (i : N) :
  exists j, (i <= j) /\ (App.candidate base ext j ∉ used)
            /\ (forall k : nat,
                 App.probe (S (size used) + k) base ext used i
                 = Some (App.candidate base ext j)).
Proof.
  destruct (candidate_unused base ext (size used) used i) as (n & Hn & Hfree); [lia|].
  destruct (probe_reaches base ext used n (S (size used)) i Hfree) as (j & Hj & Hjfree & Hp);
    [lia|].
  exists j. split; [exact Hj | split; [exact Hjfree|]].
  intros k. apply probe_more_fuel, Hp.
Qed.

(** What [ensure_unique] returns, whatever fuel it gets beyond
    [size used]: a name outside [used], the name itself when that is free
    and a numbered candidate otherwise. *)
Lemma ensure_unique_fuel_spec (name : pystr) (used : gset pystr) :
  exists c,
    (c ∉ used)
    /\ (name ∉ used -> c = name)
    /\ (name ∈ used ->
        exists i, 2 <= i /\ c = App.candidate (fst (splitext name)) (snd (splitext name)) i)
    /\ forall k : nat,
         App.ensure_unique_fuel (S (size used) + k) name used = Some (c, {[c]} ∪ used).
Proof.
  unfold App.ensure_unique_fuel. destruct (splitext name) as [base ext]. simpl fst. simpl snd.
  destruct (decide (name ∈ used)) as [Hin|Hout].
  - destruct (probe_total base ext used 2) as (j & Hj & Hfree & Hp).
    exists (App.candidate base ext j). split; [exact Hfree|].
    split; [intros; contradiction|]. split; [intros _; exists j; auto|].
    intros k. rewrite bool_decide_eq_true_2 by exact Hin. rewrite Hp. reflexivity.
  - exists name. split; [exact Hout|]. split; [reflexivity|].
    split; [intros; contradiction|].
    intros k. rewrite bool_decide_eq_false_2 by exact Hout. reflexivity.
Qed.

Lemma ensure_unique_spec (name : pystr) (used : gset pystr) :
  exists c,
    App.ensure_unique name used = Ok (c, {[c]} ∪ used)
    /\ (c ∉ used)
    /\ (name ∉ used -> c = name)
    /\ (name ∈ used ->
        exists i, 2 <= i /\ c = App.candidate (fst (splitext name)) (snd (splitext name)) i).
Proof.
  destruct (ensure_unique_fuel_spec name used) as (c & Hfree & Hsame & Hren & Hrun).
  exists c. unfold App.ensure_unique. specialize (Hrun 0%nat).
  rewrite Nat.add_0_r in Hrun. rewrite Hrun. auto.
Qed.

(** C10. [ensure_unique] terminates on every name and every finite set of
    used names: some number of loop rounds suffices, any larger number gives
    the same result, and the name returned is not in [used]. *)
Theorem ensure_unique_terminates (name : pystr) (used : gset pystr) :
  exists (n : nat) (c : pystr),
    (c ∉ used)
    /\ forall k : nat,
         App.ensure_unique_fuel (n + k) name used = Some (c, {[c]} ∪ used).
Proof.
  destruct (ensure_unique_fuel_spec name used) as (c & Hfree & _ & _ & Hrun).
  exists (S (size used)), c. split; [exact Hfree | exact Hrun].
Qed.

(** * Rows of a data frame *)

Lemma lookup_label_present (cols : list pystr) (c : pystr) :
  In c cols -> forall cells, exists v, lookup_label (label_row cols cells) c = Some v.
Proof.
  unfold lookup_label, pystr_eqb.
  induction cols as [|x cols IH]; intros Hin cells; [destruct Hin|].
  simpl. destruct (decide (x = c)) as [->|Hne].
  - rewrite bool_decide_eq_true_2 by reflexivity. eauto.
  - rewrite bool_decide_eq_false_2 by exact Hne.
    destruct Hin as [E|Hin]; [contradiction|]. apply IH, Hin.
Qed.

Lemma lookup_label_absent (cols : list pystr) (c : pystr) :
  ~ In c cols -> forall cells, lookup_label (label_row cols cells) c = None.
Proof.
  unfold lookup_label, pystr_eqb.
  induction cols as [|x cols IH]; intros Hin cells; [reflexivity|].
  simpl. rewrite bool_decide_eq_false_2 by (intros ->; apply Hin; left; reflexivity).
  apply IH. intros H. apply Hin. right. exact H.
Qed.

Lemma iterrows_from_rows (cols : list pystr) (rows : list (list cell)) :
  forall i ir, In ir (iterrows_from cols i rows) ->
               exists cells, In cells rows /\ snd ir = label_row cols cells.
Proof.
  induction rows as [|r rows IH]; intros i ir Hin; [destruct Hin|].
  destruct Hin as [<-|Hin].
  - exists r. split; [left; reflexivity | reflexivity].
  - destruct (IH _ _ Hin) as (cells & Hc & E). exists cells. split; [right; exact Hc | exact E].
Qed.

Lemma iterrows_from_length (cols : list pystr) (rows : list (list cell)) i :
  length (iterrows_from cols i rows) = length rows.
Proof. revert i. induction rows as [|r rows IH]; intros i; simpl; [|rewrite IH]; reflexivity. Qed.

Lemma find_filename_col_In (cols : list pystr) (c : pystr) :
  App.find_filename_col cols = Some c -> In c cols.
Proof. intros H. apply List.find_some in H. apply H. Qed.

(** * The loop of [app.py] *)

Lemma App_inv_initial : App_inv App.initial.
Proof. split; [reflexivity | split; [constructor | reflexivity]]. Qed.

Lemma names_snoc (l : list zip_entry) (e : zip_entry) :
  names (l ++ [e]) = names l ++ [entry_name e].
Proof. unfold names. rewrite List.map_app. reflexivity. Qed.

(** One iteration that writes an entry. *)
Lemma App_body_writes fc st i row text st' :
  App_inv st ->
  App.first_string_cell (values row) = Some text ->
  App.body fc st (i, row) = Ok st' ->
  exists name e,
    App.resolve fc i row = Ok name
    /\ App_step (names (App.zf st)) name e
    /\ App.zf st' = App.zf st ++ [ {| entry_name := e; entry_text := text |} ]
    /\ App_inv st'.
Proof.
  intros (Hused & Hnd & Hcr) Htext. unfold App.body. rewrite Htext.
  destruct (App.resolve fc i row) as [name|err]; simpl; [|discriminate].
  destruct (ensure_unique_spec name (App.used_names st)) as (c & Hrun & Hfree & Hsame & Hren).
  rewrite Hrun. simpl. intros [= <-]. simpl.
  rewrite Hused in Hfree, Hsame, Hren.
  rewrite elem_of_list_to_set in Hfree, Hsame, Hren.
  exists name, c. split; [reflexivity|]. split; [|split; [reflexivity|]].
  - split; [exact Hfree | split; [exact Hsame | exact Hren]].
  - split; [|split]; simpl.
    + rewrite names_snoc, list_to_set_app_L, Hused. simpl.
      rewrite (right_id_L ∅ (∪)). apply (comm_L (∪)).
    + rewrite names_snoc. simpl. apply NoDup_app. split; [exact Hnd|].
      split; [|apply NoDup_singleton].
      intros x Hx Hx'. apply list_elem_of_singleton in Hx'. subst x. contradiction.
    + rewrite Hcr, length_app. simpl. lia.
Qed.

Lemma App_loop_cons fc st ir rows :
  App.loop fc st (ir :: rows)
  = bind (App.body fc st ir) (fun st1 => App.loop fc st1 rows).
Proof. reflexivity. Qed.

Lemma App_resolved_text fc i row rows text :
  App.first_string_cell (values row) = Some text ->
  App_resolved fc ((i, row) :: rows)
  = bind (App.resolve fc i row)
      (fun n => bind (App_resolved fc rows) (fun ns => Ok (n :: ns))).
Proof. intros H. simpl. rewrite H. reflexivity. Qed.

Lemma App_resolved_skip fc i row rows :
  App.first_string_cell (values row) = None ->
  App_resolved fc ((i, row) :: rows) = App_resolved fc rows.
Proof. intros H. simpl. rewrite H. reflexivity. Qed.

Lemma App_absent_text i row rows text :
  App.first_string_cell (values row) = Some text ->
  App_absent ((i, row) :: rows) = App_absent rows.
Proof. intros H. unfold App_absent. simpl. rewrite H. reflexivity. Qed.

Lemma App_absent_skip i row rows :
  App.first_string_cell (values row) = None ->
  App_absent ((i, row) :: rows) = (i, row) :: App_absent rows.
Proof. intros H. unfold App_absent. simpl. rewrite H. reflexivity. Qed.

Lemma App_loop_trace fc rows :
  forall st st',
    App_inv st ->
    App.loop fc st rows = Ok st' ->
    exists R E,
      App_resolved fc rows = Ok R
      /\ names (App.zf st') = names (App.zf st) ++ E
      /\ length E = length R
      /\ (length E + length (App_absent rows) = length rows)%nat
      /\ App_inv st'
      /\ App_trace (names (App.zf st)) R E.
Proof.
  induction rows as [|[i row] rows IH]; intros st st' Hinv Hrun.
  - simpl in Hrun. injection Hrun as <-. exists [], [].
    rewrite app_nil_r. repeat split; try apply Hinv.
  - rewrite App_loop_cons in Hrun.
    destruct (App.body fc st (i, row)) as [st1|err] eqn:Hbody; simpl in Hrun; [|discriminate].
    destruct (App.first_string_cell (values row)) as [text|] eqn:Htext.
    + destruct (App_body_writes fc st i row text st1 Hinv Htext Hbody)
        as (name & e & Hres & Hstep & Hzf & Hinv1).
      destruct (IH st1 st' Hinv1 Hrun) as (R & E & HR & Hnames & Hlen & Hcount & Hinv' & Htrace).
      exists (name :: R), (e :: E).
      rewrite (App_resolved_text _ _ _ _ _ Htext), Hres, (App_absent_text _ _ _ _ Htext).
      simpl. rewrite HR. simpl.
      split; [reflexivity|]. split.
      { rewrite Hnames, Hzf, names_snoc. simpl. rewrite <- app_assoc. reflexivity. }
      split; [lia|]. split; [lia|]. split; [exact Hinv'|].
      split; [exact Hstep|].
      rewrite Hzf, names_snoc in Htrace. exact Htrace.
    + unfold App.body in Hbody. rewrite Htext in Hbody. injection Hbody as <-.
      destruct (IH st st' Hinv Hrun) as (R & E & HR & Hnames & Hlen & Hcount & Hinv' & Htrace).
      exists R, E.
      rewrite (App_resolved_skip _ _ _ _ Htext), (App_absent_skip _ _ _ Htext). simpl.
      repeat split; try assumption; try apply Hinv'. lia.
Qed.

(** The loop raises nothing when every row carries the filename column. *)
Lemma App_loop_total fc rows :
  (forall c ir, fc = Some c -> In ir rows -> lookup_label (snd ir) c <> None) ->
  forall st, exists st', App.loop fc st rows = Ok st'.
Proof.
  induction rows as [|[i row] rows IH]; intros Hcols st; [eexists; reflexivity|].
  rewrite App_loop_cons. unfold App.body.
  destruct (App.first_string_cell (values row)) as [text|]; simpl.
  - assert (exists name, App.resolve fc i row = Ok name) as [name ->].
    { unfold App.resolve, App.raw_name, App.getitem. destruct fc as [c|]; [|eexists; reflexivity].
      destruct (lookup_label row c) eqn:E; [eexists; reflexivity|].
      exfalso. apply (Hcols c (i, row)); [reflexivity | left; reflexivity | exact E]. }
    simpl.
    destruct (ensure_unique_spec name (App.used_names st)) as (c & -> & _). simpl.
    apply IH. intros c' ir Hc Hin. apply Hcols; [exact Hc | right; exact Hin].
  - apply IH. intros c' ir Hc Hin. apply Hcols; [exact Hc | right; exact Hin].
Qed.

Lemma App_convert_total (df : DataFrame) :
  exists st, App.loop (App.find_filename_col (columns df)) App.initial (iterrows df) = Ok st
             /\ App.convert df = Ok {| App.rowsProcessed := len_df df;
                                       App.filesCreated := App.created st;
                                       App.archive := App.zf st |}.
Proof.
  destruct (App_loop_total (App.find_filename_col (columns df)) (iterrows df)) with (st := App.initial)
    as [st Hst].
  - intros c ir Hc Hin. apply find_filename_col_In in Hc.
    apply iterrows_from_rows in Hin as (cells & _ & ->).
    destruct (lookup_label_present _ _ Hc cells) as [v ->]. discriminate.
  - exists st. split; [exact Hst|]. unfold App.convert. rewrite Hst. reflexivity.
Qed.

(** Uniqueness in [app.py] under the default index: with every
    [zf.writestr] returning, a run completes and no two of its calls carry
    the same name. *)
Theorem App_names_unique (df : DataFrame) :
  exists r, App.convert df = Ok r /\ NoDup (names (App.archive r)).
Proof.
  destruct (App_convert_total df) as (st & Hloop & Hconv).
  eexists. split; [exact Hconv|]. simpl.
  destruct (App_loop_trace _ _ _ _ App_inv_initial Hloop) as (R & E & _ & _ & _ & _ & Hinv & _).
  apply Hinv.
Qed.

(** * The loop of [txt_to_csv.py] *)

Lemma first_nonempty_str_nonempty row t :
  TxtToCsv.first_nonempty_str row = Some t -> t <> [].
Proof.
  induction row as [|v row IH]; simpl; [discriminate|].
  destruct v as [s| | |]; try exact IH.
  destruct (strip s) as [|c r] eqn:E; [exact IH|].
  intros [= <-]. discriminate.
Qed.

Lemma select_text_nonempty o row t :
  TxtToCsv.select_text o row = Some t -> t <> [].
Proof.
  unfold TxtToCsv.select_text. destruct (TxtToCsv.text_mode o).
  - destruct (Series_get row (TxtToCsv.text_col o)) as [[s| | |]|]; try discriminate.
    destruct (strip s) as [|c r] eqn:E; [discriminate|].
    intros [= <-] ->. discriminate.
  - apply first_nonempty_str_nonempty.
Qed.

Lemma occurrences_snoc (x y : pystr) (l : list pystr) :
  occurrences x (l ++ [y]) = occurrences x l + (if decide (y = x) then 1 else 0).
Proof.
  unfold occurrences, pystr_eqb. rewrite List.filter_app, length_app. simpl.
  destruct (decide (y = x)) as [E|E].
  - rewrite bool_decide_eq_true_2 by exact E. simpl. lia.
  - rewrite bool_decide_eq_false_2 by exact E. simpl. lia.
Qed.

Lemma occurrences_zero (x : pystr) (l : list pystr) :
  occurrences x l = 0 <-> x ∉ l.
Proof.
  unfold occurrences, pystr_eqb. induction l as [|y l IH]; simpl.
  - split; [intros _; apply not_elem_of_nil | reflexivity].
  - rewrite not_elem_of_cons. destruct (decide (y = x)) as [E|E].
    + rewrite bool_decide_eq_true_2 by exact E. simpl. split; [lia|].
      intros [H _]. congruence.
    + rewrite bool_decide_eq_false_2 by exact E. rewrite IH.
      split; [intros H; split; [congruence | exact H] | intros [_ H]; exact H].
Qed.

Lemma TxtToCsv_inv_initial : TxtToCsv_inv ∅ [].
Proof. intros s. unfold TxtToCsv.count_of. rewrite lookup_empty. reflexivity. Qed.

(** Lines 169-172 against the rows seen so far. *)
Lemma TxtToCsv_rename_spec (used : gmap pystr N) (before : list pystr) (fname : pystr) :
  TxtToCsv_inv used before ->
  fst (TxtToCsv.rename used fname) = TxtToCsv_emitted before fname
  /\ TxtToCsv_inv (snd (TxtToCsv.rename used fname)) (before ++ [fname]).
Proof.
  intros Hinv. unfold TxtToCsv.rename, TxtToCsv_emitted.
  assert (stem fname = fst (splitext fname)) as Hst by reflexivity.
  assert (extension fname = snd (splitext fname)) as Hex by reflexivity.
  destruct (splitext fname) as [base ext]. simpl in Hst, Hex. rewrite Hst, Hex.
  rewrite <- (Hinv base).
  split.
  - destruct (1 <? TxtToCsv.count_of used base + 1); reflexivity.
  - assert (snd (if 1 <? TxtToCsv.count_of used base + 1
                 then (base ++ lit "_" ++ str_of_int (TxtToCsv.count_of used base + 1) ++ ext,
                       <[base := TxtToCsv.count_of used base + 1]> used)
                 else (fname, <[base := TxtToCsv.count_of used base + 1]> used))
            = <[base := TxtToCsv.count_of used base + 1]> used) as ->
      by (destruct (1 <? _); reflexivity).
    intros s. rewrite List.map_app. simpl. rewrite occurrences_snoc, Hst.
    unfold TxtToCsv.count_of at 1. rewrite lookup_insert.
    destruct (decide (base = s)) as [->|Hne]; simpl.
    + rewrite Hinv. reflexivity.
    + fold (TxtToCsv.count_of used s). rewrite Hinv. lia.
Qed.

Lemma TxtToCsv_resolved_text o i row rows c t :
  TxtToCsv.select_text o row = Some (c :: t) ->
  TxtToCsv_resolved o ((i, row) :: rows)
  = TxtToCsv.resolve_filename o i row :: TxtToCsv_resolved o rows.
Proof. intros H. simpl. rewrite H. reflexivity. Qed.

Lemma TxtToCsv_resolved_skip o i row rows :
  TxtToCsv.select_text o row = None ->
  TxtToCsv_resolved o ((i, row) :: rows) = TxtToCsv_resolved o rows.
Proof. intros H. simpl. rewrite H. reflexivity. Qed.

Lemma TxtToCsv_loop_cons o st ir rows :
  TxtToCsv.loop o st (ir :: rows) = TxtToCsv.loop o (TxtToCsv.body o st ir) rows.
Proof. reflexivity. Qed.

Lemma TxtToCsv_loop_trace o rows :
  forall st before,
    TxtToCsv_inv (TxtToCsv.used_names st) before ->
    exists E,
      names (TxtToCsv.zf (TxtToCsv.loop o st rows)) = names (TxtToCsv.zf st) ++ E
      /\ length E = length (TxtToCsv_resolved o rows)
      /\ (length E + length (TxtToCsv_absent o rows) = length rows)%nat
      /\ E = TxtToCsv_emit_all before (TxtToCsv_resolved o rows).
Proof.
  induction rows as [|[i row] rows IH]; intros st before Hinv.
  - exists []. simpl. rewrite app_nil_r. repeat split.
  - rewrite TxtToCsv_loop_cons.
    destruct (TxtToCsv.select_text o row) as [[|c t]|] eqn:Htext.
    + exfalso. apply (select_text_nonempty _ _ _ Htext). reflexivity.
    + rewrite (TxtToCsv_resolved_text _ _ _ _ _ _ Htext).
      destruct (TxtToCsv_rename_spec (TxtToCsv.used_names st) before
                  (TxtToCsv.resolve_filename o i row) Hinv) as [Hname Hinv1].
      assert (TxtToCsv.body o st (i, row)
              = {| TxtToCsv.used_names :=
                     snd (TxtToCsv.rename (TxtToCsv.used_names st) (TxtToCsv.resolve_filename o i row));
                   TxtToCsv.zf := TxtToCsv.zf st ++
                     [ {| entry_name :=
                            fst (TxtToCsv.rename (TxtToCsv.used_names st) (TxtToCsv.resolve_filename o i row));
                          entry_text := c :: t |} ] |}) as Hbody.
      { unfold TxtToCsv.body. rewrite Htext. reflexivity. }
      rewrite Hbody. clear Hbody.
      match goal with |- context [TxtToCsv.loop o ?s rows] => set (st1 := s) end.
      destruct (IH st1 _ Hinv1) as (E & Hnames & Hlen & Hcount & Htrace). simpl in Hnames.
      exists (TxtToCsv_emitted before (TxtToCsv.resolve_filename o i row) :: E).
      split.
      { rewrite Hnames, names_snoc. simpl. rewrite Hname, <- app_assoc. reflexivity. }
      split; [simpl; lia|]. split.
      { unfold TxtToCsv_absent in *. simpl. rewrite Htext. simpl. lia. }
      simpl. rewrite Htrace. reflexivity.
    + rewrite (TxtToCsv_resolved_skip _ _ _ _ Htext).
      assert (TxtToCsv.body o st (i, row) = st) as -> by (unfold TxtToCsv.body; rewrite Htext; reflexivity).
      destruct (IH _ _ Hinv) as (E & Hnames & Hlen & Hcount & Htrace).
      exists E. repeat split; try assumption.
      unfold TxtToCsv_absent in *. simpl. rewrite Htext. simpl. lia.
Qed.

(** * Reading the traces by row *)

(** The [k]-th row with a text is treated by [ensure_unique] against the
    names written for the rows before it. *)
Lemma App_trace_lookup (R : list pystr) :
  forall (before E : list pystr) (k : nat) (name : pystr),
    App_trace before R E ->
    R !! k = Some name ->
    exists e, E !! k = Some e /\ App_step (before ++ take k E) name e.
Proof.
  induction R as [|n R IH]; intros before E k name Htrace Hk.
  - rewrite lookup_nil in Hk. discriminate.
  - destruct E as [|e E]; [destruct Htrace|]. destruct Htrace as [Hstep Hrest].
    destruct k as [|k]; simpl in Hk.
    + injection Hk as <-. exists e. simpl. rewrite app_nil_r.
      split; [reflexivity | exact Hstep].
    + destruct (IH _ _ _ _ Hrest Hk) as (e' & He' & Hs).
      exists e'. split; [exact He'|]. simpl. rewrite <- app_assoc in Hs. exact Hs.
Qed.

(** The [k]-th row with a text is renamed by the count of its stem among the
    rows before it. *)
Lemma TxtToCsv_emit_all_lookup (R : list pystr) :
  forall (before : list pystr) (k : nat) (name : pystr),
    R !! k = Some name ->
    TxtToCsv_emit_all before R !! k
    = Some (TxtToCsv_emitted (before ++ take k R) name).
Proof.
  induction R as [|n R IH]; intros before k name Hk.
  - rewrite lookup_nil in Hk. discriminate.
  - destruct k as [|k]; simpl in Hk.
    + injection Hk as <-. simpl. rewrite app_nil_r. reflexivity.
    + simpl. rewrite (IH _ _ _ Hk), <- app_assoc. reflexivity.
Qed.

(** * Runs *)

(** C1. In [txt_to_csv.py] the rows [x], [x], [x_2] are written as [x.txt],
    [x_2.txt] and [x_2.txt]: the archive gets two entries of one name. *)
Theorem TxtToCsv_names_collide :
  names (TxtToCsv.archive (TxtToCsv.convert plain_options collide_df))
  = [lit "x.txt"; lit "x_2.txt"; lit "x_2.txt"]
  /\ ~ NoDup (names (TxtToCsv.archive (TxtToCsv.convert plain_options collide_df))).
Proof.
  assert (names (TxtToCsv.archive (TxtToCsv.convert plain_options collide_df))
          = [lit "x.txt"; lit "x_2.txt"; lit "x_2.txt"]) as E by (vm_compute; reflexivity).
  split; [exact E|]. rewrite E. intros H.
  apply NoDup_cons in H as [_ H]. apply NoDup_cons in H as [H _].
  apply H. left.
Qed.

(** C7, as stated, fails in [app.py]: of the rows [x], [x], [x_2] the third
    is the first that resolves to [x_2.txt], yet it is written as
    [x_2_2.txt], the second row having taken [x_2.txt]. *)
Lemma first_occurrence_counterexample :
  exists r R,
    App.convert collide_df = Ok r
    /\ App_resolved (App.find_filename_col (columns collide_df)) (iterrows collide_df) = Ok R
    /\ R = [lit "x.txt"; lit "x.txt"; lit "x_2.txt"]
    /\ names (App.archive r) = [lit "x.txt"; lit "x_2.txt"; lit "x_2_2.txt"]
    /\ ~ first_occurrence_keeps_name R (names (App.archive r)).
Proof.
  eexists. eexists.
  split; [vm_compute; reflexivity|].
  split; [vm_compute; reflexivity|].
  split; [vm_compute; reflexivity|].
  split; [vm_compute; reflexivity|].
  intros H. specialize (H 2%nat (lit "x_2.txt")).
  vm_compute in H.
  assert (Some [120; 95; 50; 95; 50; 46; 116; 120; 116] = Some [120; 95; 50; 46; 116; 120; 116]) as Habs.
  { apply H; [reflexivity|].
    intros Hin. apply elem_of_cons in Hin as [Hin|Hin]; [discriminate|].
    apply elem_of_cons in Hin as [Hin|Hin]; [discriminate|].
    apply not_elem_of_nil in Hin. exact Hin. }
  discriminate.
Qed.

Lemma TxtToCsv_emitted_cases (before : list pystr) (name : pystr) :
  (stem name ∉ List.map stem before -> TxtToCsv_emitted before name = name)
  /\ (stem name ∈ List.map stem before ->
      TxtToCsv_emitted before name
      = stem name ++ lit "_"
        ++ str_of_int (occurrences (stem name) (List.map stem before) + 1)
        ++ extension name).
Proof.
  unfold TxtToCsv_emitted. split; intros H.
  - apply occurrences_zero in H. rewrite H. reflexivity.
  - destruct (occurrences (stem name) (List.map stem before)) eqn:E.
    + apply occurrences_zero in E. contradiction.
    + replace (1 <? N.pos p + 1) with true; [reflexivity|].
      symmetry. apply N.ltb_lt. lia.
Qed.

(** C7. Which rows keep their name.  In [app.py] a row keeps its resolved
    name when no entry written before it has that name, whether written for
    a row of that name or as the renaming of another one; otherwise it gets
    the stem, an underscore, a number from 2 on and the extension, a name
    not written before.  In [txt_to_csv.py] a row keeps its resolved name
    when no earlier row resolved to the same stem; otherwise it gets the
    stem, an underscore, the number of rows with that stem so far and the
    extension. *)
Theorem first_occurrence_rule (df : DataFrame) (o : TxtToCsv.options) :
  (exists r R,
     App.convert df = Ok r
     /\ App_resolved (App.find_filename_col (columns df)) (iterrows df) = Ok R
     /\ App_trace [] R (names (App.archive r)))
  /\ names (TxtToCsv.archive (TxtToCsv.convert o df))
     = TxtToCsv_emit_all [] (TxtToCsv_resolved o (iterrows df)).
Proof.
  split.
  - destruct (App_convert_total df) as (st & Hloop & Hconv).
    destruct (App_loop_trace _ _ _ _ App_inv_initial Hloop)
      as (R & E & HR & Hnames & _ & _ & _ & Htrace).
    eexists. exists R. split; [exact Hconv|]. split; [exact HR|].
    simpl. rewrite Hnames. exact Htrace.
  - destruct (TxtToCsv_loop_trace o (iterrows df) TxtToCsv.initial [] TxtToCsv_inv_initial)
      as (E & Hnames & _ & _ & Htrace).
    unfold TxtToCsv.convert. simpl. rewrite Hnames, Htrace. reflexivity.
Qed.

(** C8. Skip accounting.  A run of [app.py] completes and reports the number
    of rows of the table and the number of entries written, and the rows
    without text make up the difference; [txt_to_csv.py] reports the number
    of rows, and its entries and the rows without text add up to it. *)
Theorem skip_accounting (df : DataFrame) (o : TxtToCsv.options) :
  (exists r,
     App.convert df = Ok r
     /\ App.rowsProcessed r = len_df df
     /\ App.filesCreated r = N.of_nat (length (App.archive r))
     /\ App.filesCreated r + N.of_nat (length (App_absent (iterrows df)))
        = App.rowsProcessed r)
  /\ (TxtToCsv.rowsProcessed (TxtToCsv.convert o df) = len_df df
      /\ N.of_nat (length (TxtToCsv.archive (TxtToCsv.convert o df)))
         + N.of_nat (length (TxtToCsv_absent o (iterrows df)))
         = TxtToCsv.rowsProcessed (TxtToCsv.convert o df)).
Proof.
  split.
  - destruct (App_convert_total df) as (st & Hloop & Hconv).
    destruct (App_loop_trace _ _ _ _ App_inv_initial Hloop)
      as (R & E & _ & Hnames & _ & Hcount & (_ & _ & Hcr) & _).
    eexists. split; [exact Hconv|]. simpl.
    split; [reflexivity|]. split; [exact Hcr|].
    rewrite Hcr. unfold len_df, iterrows in *. rewrite iterrows_from_length in Hcount.
    assert (length (App.zf st) = length E) as ->.
    { rewrite <- (length_map entry_name). fold (names (App.zf st)). rewrite Hnames. reflexivity. }
    lia.
  - destruct (TxtToCsv_loop_trace o (iterrows df) TxtToCsv.initial [] TxtToCsv_inv_initial)
      as (E & Hnames & _ & Hcount & _).
    unfold TxtToCsv.convert. simpl. split; [reflexivity|].
    unfold len_df, iterrows in *. rewrite iterrows_from_length in Hcount.
    assert (length (TxtToCsv.zf (TxtToCsv.loop o TxtToCsv.initial (iterrows_from (columns df) 0 (data df))))
            = length E) as ->.
    { rewrite <- (length_map entry_name). fold (names (TxtToCsv.zf (TxtToCsv.loop o TxtToCsv.initial (iterrows_from (columns df) 0 (data df))))).
      rewrite Hnames. reflexivity. }
    lia.
Qed.

(** * The text selector *)

(** C6, as stated, fails in [txt_to_csv.py]: the first string cell of the
    row is [" hi "], and [first_nonempty_str] returns it trimmed. *)
Lemma first_nonempty_str_counterexample :
  spec_first_text padded_row = Some (lit " hi ")
  /\ TxtToCsv.first_nonempty_str padded_row = Some (lit "hi")
  /\ TxtToCsv.first_nonempty_str padded_row <> spec_first_text padded_row.
Proof.
  split; [reflexivity|]. split; [reflexivity|]. vm_compute. discriminate.
Qed.

(** C6. Both selectors scan the cells in column order, skip every cell that
    is not a string or is empty once trimmed, and stop at the first string
    cell that is not; [app.py] returns that value as it is,
    [txt_to_csv.py] returns it trimmed.  Either returns nothing exactly
    when the row has no such cell. *)
Theorem first_text_cell (row : list cell) :
  App.first_string_cell row = spec_first_text row
  /\ TxtToCsv.first_nonempty_str row = option_map strip (spec_first_text row)
  /\ (spec_first_text row = None <-> Forall (fun v => is_text_cell v = false) row).
Proof.
  unfold spec_first_text. induction row as [|v row (IHa & IHb & IHn)]; simpl.
  - split; [reflexivity|]. split; [reflexivity|]. split; [constructor | reflexivity].
  - destruct v as [s| | |]; simpl.
    + destruct (strip s) as [|c r] eqn:E.
      * split; [exact IHa|]. split; [exact IHb|]. rewrite IHn. split.
        -- intros H. constructor; [simpl; rewrite E; reflexivity | exact H].
        -- intros H. inversion H. assumption.
      * split; [reflexivity|]. split; [simpl; rewrite E; reflexivity|].
        split; [discriminate|]. intros H. inversion H as [|? ? Hv]. simpl in Hv.
        rewrite E in Hv. discriminate.
    + split; [exact IHa|]. split; [exact IHb|]. rewrite IHn. split.
      * intros H. constructor; [reflexivity | exact H].
      * intros H. inversion H. assumption.
    + split; [exact IHa|]. split; [exact IHb|]. rewrite IHn. split.
      * intros H. constructor; [reflexivity | exact H].
      * intros H. inversion H. assumption.
    + split; [exact IHa|]. split; [exact IHb|]. rewrite IHn. split.
      * intros H. constructor; [reflexivity | exact H].
      * intros H. inversion H. assumption.
Qed.

(** * Suffixes *)

Lemma endswith_app (a t : pystr) : endswith (a ++ t) t = true.
Proof.
  unfold endswith, pystr_eqb. rewrite length_app.
  apply andb_true_iff. split; [apply Nat.leb_le; lia|].
  apply bool_decide_eq_true_2.
  replace (length a + length t - length t)%nat with (length a) by lia.
  apply drop_app_length.
Qed.

Lemma lower_app (a b : pystr) : lower (a ++ b) = lower a ++ lower b.
Proof. apply List.map_app. Qed.

Lemma lstrip_app_tail (s t : pystr) :
  head_space t = false -> exists u, lstrip (s ++ t) = u ++ t.
Proof.
  intros Ht. induction s as [|c s IH]; simpl.
  - exists []. apply lstrip_fixed, Ht.
  - destruct (isspace c); [exact IH | exists (c :: s); reflexivity].
Qed.

Lemma collapse_nonspace (t : pystr) :
  Forall (fun c => isspace c = false) t -> forall b, collapse_from b t = t.
Proof.
  induction 1 as [|c t Hc _ IH]; intros b; simpl; [reflexivity|].
  rewrite Hc, IH. reflexivity.
Qed.

Lemma collapse_app_tail (t : pystr) :
  Forall (fun c => isspace c = false) t ->
  forall u b, exists w, collapse_from b (u ++ t) = w ++ t.
Proof.
  intros Ht. induction u as [|c u IH]; intros b; simpl.
  - exists []. apply collapse_nonspace, Ht.
  - destruct (isspace c); [destruct b|].
    + apply IH.
    + destruct (IH true) as [w ->]. exists (SPACE :: w). reflexivity.
    + destruct (IH false) as [w ->]. exists (c :: w). reflexivity.
Qed.

(** Sanitizing a name that ends in [.txt] keeps that ending. *)
Lemma App_sanitize_keeps_txt (s : pystr) :
  exists w, App.sanitize_filename (s ++ lit ".txt") = w ++ lit ".txt".
Proof.
  unfold App.sanitize_filename, strip.
  destruct (lstrip_app_tail s (lit ".txt")) as [u ->]; [reflexivity|].
  assert (rstrip (u ++ lit ".txt") = u ++ lit ".txt") as ->.
  { change (lit ".txt") with (lit ".tx" ++ [116]). rewrite app_assoc.
    apply rstrip_snoc. reflexivity. }
  unfold sub_class. rewrite List.map_app.
  change (List.map (fun c => if App.unsafe c then UNDERSCORE else c) (lit ".txt"))
    with (lit ".txt").
  unfold collapse_ws.
  destruct (collapse_app_tail (lit ".txt")) with
    (u := List.map (fun c => if App.unsafe c then UNDERSCORE else c) u) (b := false)
    as [w ->].
  { repeat constructor. }
  exists w. destruct w; reflexivity.
Qed.

Lemma App_resolve_raw fc i row name :
  App.resolve fc i row = Ok name ->
  exists s, name = App.sanitize_filename (s ++ lit ".txt").
Proof.
  unfold App.resolve, App.raw_name. destruct fc as [c|]; simpl.
  - destruct (App.getitem row c) as [v|]; simpl; [|discriminate].
    intros [= <-]. exists (py_str v). reflexivity.
  - intros [= <-]. exists (lit "row_" ++ str_of_int (i + 1)).
    rewrite <- !app_assoc. reflexivity.
Qed.

(** C2, as stated, fails in [app.py]: the filename cell [report.TXT] resolves
    to [report.TXT.txt]. *)
Lemma report_TXT_counterexample :
  App.resolve (Some (lit "filename")) 0 report_row = Ok (lit "report.TXT.txt")
  /\ App.resolve (Some (lit "filename")) 0 report_row <> Ok (lit "report.TXT").
Proof.
  split; [reflexivity|]. vm_compute. discriminate.
Qed.

(** C2. Every resolved name ends in [.txt], compared without case.
    [txt_to_csv.py] appends [.txt] unless the name made of prefix, base name
    and suffix already ends so, and then leaves that name as it is;
    [app.py] appends [.txt] to the cell text or row name in every case and
    sanitizes the result, which keeps the ending. *)
Theorem txt_suffix_rule (o : TxtToCsv.options) (fc : option pystr) (i : N)
  (row : Series) (name : pystr) :
  App.resolve fc i row = Ok name ->
  (exists w, name = w ++ lit ".txt")
  /\ endswith (lower name) (lit ".txt") = true
  /\ endswith (lower (TxtToCsv.resolve_filename o i row)) (lit ".txt") = true
  /\ TxtToCsv.resolve_filename o i row
     = (let pre := TxtToCsv.prefix o ++ TxtToCsv.base_name o i row ++ TxtToCsv.suffix o in
        if endswith (lower pre) (lit ".txt") then pre else pre ++ lit ".txt").
Proof.
  intros Hres. apply App_resolve_raw in Hres as [s ->].
  destruct (App_sanitize_keeps_txt s) as [w Hw].
  split; [exists w; exact Hw|]. split.
  { rewrite Hw, lower_app. apply endswith_app. }
  split; [|reflexivity].
  unfold TxtToCsv.resolve_filename, TxtToCsv.ensure_txt_suffix.
  set (pre := TxtToCsv.prefix o ++ TxtToCsv.base_name o i row ++ TxtToCsv.suffix o).
  destruct (endswith (lower pre) (lit ".txt")) eqn:E; [exact E|].
  rewrite lower_app. apply endswith_app.
Qed.

Lemma txt_suffix_rule_witness :
  (exists w, lit "report.TXT.txt" = w ++ lit ".txt")
  /\ endswith (lower (lit "report.TXT.txt")) (lit ".txt") = true
  /\ endswith (lower (TxtToCsv.resolve_filename plain_options 0 report_row)) (lit ".txt") = true
  /\ TxtToCsv.resolve_filename plain_options 0 report_row
     = (let pre := TxtToCsv.prefix plain_options
                   ++ TxtToCsv.base_name plain_options 0 report_row
                   ++ TxtToCsv.suffix plain_options in
        if endswith (lower pre) (lit ".txt") then pre else pre ++ lit ".txt").
Proof.
  apply (txt_suffix_rule plain_options (Some (lit "filename")) 0 report_row
           (lit "report.TXT.txt")).
  reflexivity.
Defined.

(** * Legal names *)

Lemma legal_app (a b : pystr) : legal a -> legal b -> legal (a ++ b).
Proof. intros Ha Hb. apply Forall_app. split; assumption. Qed.

Lemma legal_digits (d : Decimal.uint) : legal (lit (NilEmpty.string_of_uint d)).
Proof. induction d; simpl; constructor; solve [reflexivity | assumption]. Qed.

Lemma legal_str_of_int (n : N) : legal (str_of_int n).
Proof. apply legal_digits. Qed.

Lemma allowed_not_unsafe (c : N) : TxtToCsv.invalid c = false -> App.unsafe c = false.
Proof.
  intros H. destruct (App.unsafe c) eqn:E; [|reflexivity].
  unfold App.unsafe, App.unsafe_chars in E. simpl in E.
  repeat (apply orb_true_iff in E as [E|E]);
    try (apply N.eqb_eq in E; subst c; vm_compute in H; discriminate).
  discriminate.
Qed.

Lemma App_sanitize_legal (raw : pystr) :
  App.sanitize_filename raw <> [] /\ legal (App.sanitize_filename raw).
Proof.
  destruct (App_sanitize_core_shape raw) as (_ & Hc & _).
  unfold App.sanitize_filename.
  destruct (collapse_ws (sub_class App.unsafe (strip raw))) as [|c r].
  - split; [discriminate | repeat constructor].
  - split; [discriminate | exact Hc].
Qed.

Lemma TxtToCsv_sanitize_legal (raw : pystr) :
  TxtToCsv.sanitize_filename raw <> [] /\ legal (TxtToCsv.sanitize_filename raw).
Proof.
  destruct (TxtToCsv_sanitize_core_shape raw) as (_ & Hc & _).
  unfold TxtToCsv.sanitize_filename.
  destruct (sub_class TxtToCsv.invalid (collapse_ws (strip raw))) as [|c r].
  - split; [discriminate | repeat constructor].
  - split; [discriminate|].
    eapply Forall_impl; [exact Hc|]. intros x Hx. apply allowed_not_unsafe, Hx.
Qed.

(** The [or] fallback of line 161 never fires. *)
Lemma py_or_sanitize (raw alt : pystr) :
  TxtToCsv.py_or (TxtToCsv.sanitize_filename raw) alt = TxtToCsv.sanitize_filename raw.
Proof.
  destruct (TxtToCsv_sanitize_legal raw) as [Hne _].
  destruct (TxtToCsv.sanitize_filename raw); [contradiction | reflexivity].
Qed.

Lemma row_name_legal (i : N) : TxtToCsv.row_name i <> [] /\ legal (TxtToCsv.row_name i).
Proof.
  unfold TxtToCsv.row_name. split; [discriminate|].
  apply legal_app; [repeat constructor | apply legal_str_of_int].
Qed.

Lemma base_name_legal o i row :
  TxtToCsv.base_name o i row <> [] /\ legal (TxtToCsv.base_name o i row).
Proof.
  unfold TxtToCsv.base_name.
  destruct (pystr_eqb (TxtToCsv.filename_col o) TxtToCsv.NO_COLUMN).
  - apply row_name_legal.
  - rewrite py_or_sanitize. apply TxtToCsv_sanitize_legal.
Qed.

(** C3, as stated, fails in [txt_to_csv.py]: the prefix is put in front of
    the sanitized name and is not sanitized itself, so the prefix [a/] gives
    the name [a/x.txt]. *)
Lemma prefix_counterexample :
  TxtToCsv.resolve_filename folder_options 0 [(lit "filename", CStr (lit "x"))]
  = lit "a/x.txt"
  /\ ~ legal (TxtToCsv.resolve_filename folder_options 0 [(lit "filename", CStr (lit "x"))]).
Proof.
  assert (TxtToCsv.resolve_filename folder_options 0 [(lit "filename", CStr (lit "x"))]
          = lit "a/x.txt") as E by reflexivity.
  split; [exact E|]. rewrite E. intros H.
  inversion H as [|c0 l0 _ H1]. inversion H1 as [|c1 l1 Hs _].
  vm_compute in Hs. discriminate.
Qed.

(** C3. Resolved names are never empty.  In [app.py] the whole name is
    sanitized, so it has none of the characters slash, backslash, colon,
    star, question mark, double quote, angle brackets, bar, CR, LF, TAB.
    In [txt_to_csv.py] the base name is sanitized before prefix and suffix
    are put around it, so the name has none of these characters when prefix
    and suffix have none.  The name of [app.py] is produced whenever the
    filename column, if there is one, is a label of the row. *)
Theorem resolved_names_legal (o : TxtToCsv.options) (fc : option pystr) (i : N)
  (row : Series) :
  (forall name, App.resolve fc i row = Ok name -> name <> [] /\ legal name)
  /\ ((forall c, fc = Some c -> lookup_label row c <> None) ->
      exists name, App.resolve fc i row = Ok name)
  /\ TxtToCsv.resolve_filename o i row <> []
  /\ (legal (TxtToCsv.prefix o) -> legal (TxtToCsv.suffix o) ->
      legal (TxtToCsv.resolve_filename o i row)).
Proof.
  split; [|split].
  - intros name Hres. unfold App.resolve in Hres.
    destruct (App.raw_name fc i row) as [raw|]; simpl in Hres; [|discriminate].
    injection Hres as <-. apply App_sanitize_legal.
  - intros Hcol. unfold App.resolve, App.raw_name, App.getitem.
    destruct fc as [c|]; [|eexists; reflexivity].
    destruct (lookup_label row c) as [v|] eqn:E; [eexists; reflexivity|].
    exfalso. exact (Hcol c eq_refl E).
  - destruct (base_name_legal o i row) as [Hne Hl].
    assert (TxtToCsv.prefix o ++ TxtToCsv.base_name o i row ++ TxtToCsv.suffix o <> []) as Hpre.
    { intros E. apply app_eq_nil in E as [_ E]. apply app_eq_nil in E as [E _]. contradiction. }
    unfold TxtToCsv.resolve_filename, TxtToCsv.ensure_txt_suffix. split.
    + destruct (endswith _ _); [exact Hpre|].
      intros E. apply app_eq_nil in E as [E _]. contradiction.
    + intros Hp Hs.
      assert (legal (TxtToCsv.prefix o ++ TxtToCsv.base_name o i row ++ TxtToCsv.suffix o))
        as Hlp.
      { apply legal_app; [exact Hp|]. apply legal_app; assumption. }
      destruct (endswith _ _); [exact Hlp|].
      apply legal_app; [exact Hlp | repeat constructor].
Qed.

Lemma resolved_names_legal_witness :
  App.resolve (Some (lit "filename")) 0 report_row = Ok (lit "report.TXT.txt")
  /\ (lit "report.TXT.txt" <> [] /\ legal (lit "report.TXT.txt"))
  /\ TxtToCsv.resolve_filename tagged_options 0 report_row <> []
  /\ legal (TxtToCsv.resolve_filename tagged_options 0 report_row).
Proof.
  destruct (resolved_names_legal tagged_options (Some (lit "filename")) 0 report_row)
    as (Ha & _ & Hne & Hl).
  split; [reflexivity|]. split; [apply Ha; reflexivity|]. split; [exact Hne|].
  apply Hl; repeat constructor.
Defined.

(** * The base name *)

(** C5, as stated, fails: a missing cell in the filename column is coerced
    to the text [nan] like any other value; the row name is not used. *)
Lemma missing_cell_counterexample :
  App.raw_name (Some (lit "filename")) 0 missing_row = Ok (lit "nan.txt")
  /\ App.raw_name (Some (lit "filename")) 0 missing_row <> Ok (lit "row_1.txt")
  /\ TxtToCsv.base_name plain_options 0 missing_row = lit "nan"
  /\ TxtToCsv.base_name plain_options 0 missing_row <> lit "row_1".
Proof.
  split; [reflexivity|]. split; [vm_compute; discriminate|].
  split; [reflexivity|]. vm_compute. discriminate.
Qed.

(** C5. Without a filename column the base name is [row_] followed by the
    1-based row index, in both variants ([app.py] appends [.txt] at once).
    With a filename column, [app.py] takes the text of the cell, whatever the
    cell holds, untrimmed, and appends [.txt]; [txt_to_csv.py] takes the
    text of a cell that holds a value, trimmed and then sanitized, when the
    trimmed text is not empty. *)
Theorem base_name_rule (o : TxtToCsv.options) (c : pystr) (i : N) (row : Series)
  (v : cell) :
  lookup_label row c = Some v ->
  App.raw_name None i row = Ok (lit "row_" ++ str_of_int (i + 1) ++ lit ".txt")
  /\ App.raw_name (Some c) i row = Ok (py_str v ++ lit ".txt")
  /\ (TxtToCsv.filename_col o = TxtToCsv.NO_COLUMN ->
      TxtToCsv.base_name o i row = lit "row_" ++ str_of_int (i + 1))
  /\ (TxtToCsv.filename_col o = c -> c <> TxtToCsv.NO_COLUMN ->
      v <> CMissing -> strip (py_str v) <> [] ->
      TxtToCsv.base_name o i row = TxtToCsv.sanitize_filename (strip (py_str v))).
Proof.
  intros Hv. split; [reflexivity|]. split.
  { unfold App.raw_name, App.getitem. rewrite Hv. reflexivity. }
  unfold TxtToCsv.base_name, pystr_eqb. split.
  - intros ->. rewrite bool_decide_eq_true_2 by reflexivity. reflexivity.
  - intros -> Hc _ _. rewrite bool_decide_eq_false_2 by exact Hc.
    rewrite Hv. simpl. apply py_or_sanitize.
Qed.

Lemma base_name_rule_witness :
  App.raw_name None 0 report_row = Ok (lit "row_" ++ str_of_int (0 + 1) ++ lit ".txt")
  /\ App.raw_name (Some (lit "filename")) 0 report_row
     = Ok (py_str (CStr (lit "report.TXT")) ++ lit ".txt")
  /\ TxtToCsv.base_name plain_options 0 report_row
     = TxtToCsv.sanitize_filename (strip (py_str (CStr (lit "report.TXT")))).
Proof.
  destruct (base_name_rule plain_options (lit "filename") 0 report_row
              (CStr (lit "report.TXT")) eq_refl) as (H1 & H2 & _ & H4).
  split; [exact H1|]. split; [exact H2|].
  apply H4; [reflexivity | vm_compute; discriminate | discriminate
            | vm_compute; discriminate].
Defined.

(** * Scenarios of the specification *)

Example sanitize_scenario :
  App.sanitize_filename (lit "a/b:c*.txt") = lit "a_b_c_.txt"
  /\ TxtToCsv.sanitize_filename (lit "a/b:c*.txt") = lit "a_b_c_.txt".
Proof. split; reflexivity. Qed.

Example splitext_scenarios :
  splitext (lit "x.txt") = (lit "x", lit ".txt")
  /\ splitext (lit ".txt") = (lit ".txt", [])
  /\ splitext (lit "a.b/c") = (lit "a.b/c", [])
  /\ splitext (lit "a/.txt") = (lit "a/.txt", [])
  /\ splitext (lit "x_2.tar.txt") = (lit "x_2.tar", lit ".txt").
Proof. repeat split; reflexivity. Qed.

(** Two rows resolving to [x] are written as [x.txt] and [x_2.txt] by both
    variants. *)
Example two_rows_scenario :
  let df := {| columns := [lit "filename"];
               data := [ [CStr (lit "x")]; [CStr (lit "x")] ] |} in
  (exists r, App.convert df = Ok r
             /\ names (App.archive r) = [lit "x.txt"; lit "x_2.txt"])
  /\ names (TxtToCsv.archive (TxtToCsv.convert plain_options df))
     = [lit "x.txt"; lit "x_2.txt"].
Proof.
  split.
  - eexists. split; vm_compute; reflexivity.
  - vm_compute. reflexivity.
Qed.

(** Without a filename column the rows are named by their label, under the
    default index their position, and a row without a string cell is
    skipped. *)
Example row_number_scenario :
  let df := {| columns := [lit "name"; lit "note"];
               data := [ [CStr (lit "Alice"); CStr (lit "hello")];
                         [CNum (lit "3"); CMissing];
                         [CStr (lit "Bob"); CMissing] ] |} in
  App.convert df
  = Ok {| App.rowsProcessed := 3;
          App.filesCreated := 2;
          App.archive := [ {| entry_name := lit "row_1.txt"; entry_text := lit "Alice" |};
                           {| entry_name := lit "row_3.txt"; entry_text := lit "Bob" |} ] |}.
Proof. vm_compute. reflexivity. Qed.

(** * The shape of sanitized names *)

Lemma spaced_lookup (s : pystr) :
  forall (b : bool) (i : nat) (c : N),
    spaced b s = true -> s !! i = Some c -> isspace c = true ->
    c = SPACE
    /\ match i with
       | O => b = false
       | S j => exists d, s !! j = Some d /\ isspace d = false
       end.
Proof.
  induction s as [|x r IH]; intros b i c Hs Hi Hc.
  - rewrite lookup_nil in Hi. discriminate.
  - simpl in Hs. destruct i as [|j]; simpl in Hi.
    + injection Hi as ->. rewrite Hc in Hs.
      apply andb_true_iff in Hs as [Hs _]. apply andb_true_iff in Hs as [Hx Hb].
      split; [apply N.eqb_eq, Hx | apply negb_true_iff, Hb].
    + assert (spaced (isspace x) r = true) as Hr.
      { destruct (isspace x); [|exact Hs].
        apply andb_true_iff in Hs as [_ Hs]. exact Hs. }
      destruct (IH _ _ _ Hr Hi Hc) as [E Hprev]. split; [exact E|].
      destruct j as [|k].
      * exists x. split; [reflexivity | exact Hprev].
      * destruct Hprev as (d & Hd & Hsp). exists d. split; [exact Hd | exact Hsp].
Qed.

Lemma trimmed_spaced_lookup (s : pystr) (i : nat) (c : N) :
  trimmed s -> spaced false s = true ->
  s !! i = Some c -> isspace c = true ->
  c = SPACE /\ exists j d, i = S j /\ s !! j = Some d /\ isspace d = false.
Proof.
  intros [Hh _] Hs Hi Hc.
  destruct (spaced_lookup s false i c Hs Hi Hc) as [E Hprev]. split; [exact E|].
  destruct i as [|j].
  - destruct s as [|x r]; [discriminate|]. simpl in Hi, Hh.
    injection Hi as ->. congruence.
  - destruct Hprev as (d & Hd & Hsp). exists j, d. auto.
Qed.

Lemma App_sanitize_shape (x : pystr) :
  trimmed (App.sanitize_filename x) /\ spaced false (App.sanitize_filename x) = true.
Proof.
  destruct (App_sanitize_core_shape x) as (Ht & _ & Hs).
  unfold App.sanitize_filename.
  destruct (collapse_ws (sub_class App.unsafe (strip x))) as [|c r].
  - split; [split|]; reflexivity.
  - split; assumption.
Qed.

Lemma TxtToCsv_sanitize_shape (x : pystr) :
  trimmed (TxtToCsv.sanitize_filename x)
  /\ spaced false (TxtToCsv.sanitize_filename x) = true
  /\ Forall (fun c => TxtToCsv.invalid c = false) (TxtToCsv.sanitize_filename x).
Proof.
  destruct (TxtToCsv_sanitize_core_shape x) as (Ht & Hc & Hs).
  unfold TxtToCsv.sanitize_filename.
  destruct (sub_class TxtToCsv.invalid (collapse_ws (strip x))) as [|c r].
  - split; [split; reflexivity|]. split; [reflexivity | repeat constructor].
  - auto.
Qed.

(** X1. In a name sanitized by [app.py] no whitespace is left at either
    end, and every whitespace character inside is a single space that
    follows a character that is not whitespace. *)
Theorem App_sanitized_whitespace (x : pystr) (i : nat) (c : N) :
  App.sanitize_filename x !! i = Some c ->
  isspace c = true ->
  strip (App.sanitize_filename x) = App.sanitize_filename x
  /\ c = SPACE
  /\ exists j d, i = S j /\ App.sanitize_filename x !! j = Some d /\ isspace d = false.
Proof.
  intros Hi Hc. destruct (App_sanitize_shape x) as [Ht Hs].
  split; [apply trimmed_strip, Ht|].
  apply (trimmed_spaced_lookup _ _ _ Ht Hs Hi Hc).
Qed.

Lemma App_sanitized_whitespace_witness :
  strip (App.sanitize_filename (lit " a  b ")) = App.sanitize_filename (lit " a  b ")
  /\ 32 = SPACE
  /\ exists j d, 1%nat = S j /\ App.sanitize_filename (lit " a  b ") !! j = Some d
                 /\ isspace d = false.
Proof.
  apply (App_sanitized_whitespace (lit " a  b ") 1 32); reflexivity.
Defined.

(** X2. A name sanitized by [txt_to_csv.py] is made of the characters
    [INVALID_FILENAME_CHARS] lets through only, and neither stripping nor
    collapsing whitespace changes it any more. *)
Theorem TxtToCsv_sanitized_alphabet (x : pystr) :
  Forall (fun c => TxtToCsv.allowed c = true) (TxtToCsv.sanitize_filename x)
  /\ strip (TxtToCsv.sanitize_filename x) = TxtToCsv.sanitize_filename x
  /\ collapse_ws (TxtToCsv.sanitize_filename x) = TxtToCsv.sanitize_filename x.
Proof.
  destruct (TxtToCsv_sanitize_shape x) as (Ht & Hs & Hc).
  split; [|split].
  - eapply Forall_impl; [exact Hc|]. intros c H. unfold TxtToCsv.invalid in H.
    apply negb_false_iff, H.
  - apply trimmed_strip, Ht.
  - apply collapse_fixed, Hs.
Qed.

(** X3. The names a sanitizer leaves as they are: those that are not empty,
    that stripping and whitespace collapsing leave unchanged, and that have
    no unsafe character ([app.py]) or only allowed ones ([txt_to_csv.py]). *)
Theorem sanitize_fixed_points (s : pystr) :
  (App.sanitize_filename s = s
   <-> s <> [] /\ strip s = s /\ collapse_ws s = s /\ legal s)
  /\ (TxtToCsv.sanitize_filename s = s
      <-> s <> [] /\ strip s = s /\ collapse_ws s = s
          /\ Forall (fun c => TxtToCsv.allowed c = true) s).
Proof.
  split; split.
  - intros E. destruct (App_sanitize_legal s) as [Hne Hl].
    destruct (App_sanitize_shape s) as [Ht Hs]. rewrite E in *.
    split; [exact Hne|]. split; [apply trimmed_strip, Ht|].
    split; [apply collapse_fixed, Hs | exact Hl].
  - intros (Hne & Hst & Hco & Hl). unfold App.sanitize_filename.
    rewrite Hst, (sub_class_fixed _ _ Hl), Hco. destruct s; [contradiction | reflexivity].
  - intros E. destruct (TxtToCsv_sanitize_legal s) as [Hne _].
    destruct (TxtToCsv_sanitize_shape s) as (Ht & Hs & Hc). rewrite E in *.
    split; [exact Hne|]. split; [apply trimmed_strip, Ht|].
    split; [apply collapse_fixed, Hs|].
    eapply Forall_impl; [exact Hc|]. intros c H. apply negb_false_iff, H.
  - intros (Hne & Hst & Hco & Hl). unfold TxtToCsv.sanitize_filename.
    rewrite Hst, Hco. rewrite sub_class_fixed.
    + destruct s; [contradiction | reflexivity].
    + eapply Forall_impl; [exact Hl|]. intros c H. unfold TxtToCsv.invalid. rewrite H. reflexivity.
Qed.

(** * Lengths *)

Lemma lstrip_length (s : pystr) : (length (lstrip s) <= length s)%nat.
Proof. induction s as [|c r IH]; simpl; [lia|]. destruct (isspace c); simpl; lia. Qed.

Lemma rstrip_length (s : pystr) : (length (rstrip s) <= length s)%nat.
Proof.
  induction s as [|c r IH]; simpl; [lia|].
  destruct (rstrip r); [destruct (isspace c)|]; simpl in *; lia.
Qed.

Lemma collapse_length (s : pystr) (b : bool) :
  (length (collapse_from b s) <= length s)%nat.
Proof.
  revert b. induction s as [|c r IH]; intros b; simpl; [lia|].
  pose proof (IH true) as Ht. pose proof (IH false) as Hf.
  destruct (isspace c); [destruct b|]; simpl; lia.
Qed.

Lemma sub_class_length cls (s : pystr) : length (sub_class cls s) = length s.
Proof. apply length_map. Qed.

Lemma strip_length (s : pystr) : (length (strip s) <= length s)%nat.
Proof. unfold strip. pose proof (rstrip_length (lstrip s)). pose proof (lstrip_length s). lia. Qed.

(** X4. Sanitizing never makes a name longer, the replacement [untitled]
    for an emptied name apart. *)
Theorem sanitize_never_lengthens (x : pystr) :
  (App.sanitize_filename x = lit "untitled"
   \/ (length (App.sanitize_filename x) <= length x)%nat)
  /\ (TxtToCsv.sanitize_filename x = lit "untitled"
      \/ (length (TxtToCsv.sanitize_filename x) <= length x)%nat).
Proof.
  split.
  - unfold App.sanitize_filename.
    pose proof (collapse_length (sub_class App.unsafe (strip x)) false) as H1.
    rewrite sub_class_length in H1. pose proof (strip_length x) as H2.
    unfold collapse_ws.
    destruct (collapse_from false (sub_class App.unsafe (strip x))); [left; reflexivity|].
    right. lia.
  - unfold TxtToCsv.sanitize_filename.
    pose proof (sub_class_length TxtToCsv.invalid (collapse_ws (strip x))) as H0.
    pose proof (collapse_length (strip x) false) as H1. fold (collapse_ws (strip x)) in H1.
    pose proof (strip_length x) as H2.
    destruct (sub_class TxtToCsv.invalid (collapse_ws (strip x))); [left; reflexivity|].
    right. lia.
Qed.

(** * The suffix *)

(** X5. [ensure_txt_suffix] is idempotent, and it returns the name itself
    or the name followed by [.txt]. *)
Theorem ensure_txt_suffix_idempotent (name : pystr) :
  TxtToCsv.ensure_txt_suffix (TxtToCsv.ensure_txt_suffix name)
  = TxtToCsv.ensure_txt_suffix name
  /\ (TxtToCsv.ensure_txt_suffix name = name
      \/ TxtToCsv.ensure_txt_suffix name = name ++ lit ".txt").
Proof.
  unfold TxtToCsv.ensure_txt_suffix.
  destruct (endswith (lower name) (lit ".txt")) eqn:E.
  - rewrite E. split; [reflexivity | left; reflexivity].
  - rewrite lower_app, endswith_app. split; [reflexivity | right; reflexivity].
Qed.

(** * The fallback of line 161 *)

(** X6. With a filename column selected the row-number alternative of
    line 161 is never taken: the base name is always the sanitized cell text,
    and a cell whose text is blank, or a label missing from the row, gives
    [untitled]. *)
Theorem base_name_never_falls_back (o : TxtToCsv.options) (i : N) (row : Series) :
  TxtToCsv.filename_col o <> TxtToCsv.NO_COLUMN ->
  let cell_text :=
    strip (py_str (default (CStr []) (lookup_label row (TxtToCsv.filename_col o)))) in
  TxtToCsv.base_name o i row = TxtToCsv.sanitize_filename cell_text
  /\ (cell_text = [] -> TxtToCsv.base_name o i row = lit "untitled").
Proof.
  intros Hc. simpl. unfold TxtToCsv.base_name, pystr_eqb.
  rewrite bool_decide_eq_false_2 by exact Hc. rewrite py_or_sanitize.
  split; [reflexivity|]. intros ->. reflexivity.
Qed.

Lemma base_name_never_falls_back_witness :
  TxtToCsv.base_name plain_options 4 [(lit "filename", CStr (lit "  "))] = lit "untitled".
Proof.
  apply (base_name_never_falls_back plain_options 4 [(lit "filename", CStr (lit "  "))]).
  - vm_compute. discriminate.
  - reflexivity.
Defined.

(** * The smallest free number *)

Lemma probe_least (base ext : pystr) (used : gset pystr) (c : pystr) :
  forall (fuel : nat) (i : N),
    App.probe fuel base ext used i = Some c ->
    exists j, (i <= j) /\ (c = App.candidate base ext j) /\ (c ∉ used)
              /\ (forall m, i <= m < j -> App.candidate base ext m ∈ used).
Proof.
  induction fuel as [|fuel IH]; intros i; simpl; [discriminate|].
  destruct (decide (App.candidate base ext i ∈ used)) as [Hin|Hout].
  - rewrite bool_decide_eq_true_2 by exact Hin. intros Hp.
    destruct (IH _ Hp) as (j & Hj & Hc & Hfree & Hbelow).
    exists j. split; [lia|]. split; [exact Hc|]. split; [exact Hfree|].
    intros m Hm. destruct (N.eq_dec m i) as [->|Hne]; [exact Hin|].
    apply Hbelow. lia.
  - rewrite bool_decide_eq_false_2 by exact Hout. intros [= <-].
    exists i. split; [lia|]. split; [reflexivity|]. split; [exact Hout|].
    intros m Hm. lia.
Qed.

(** X7. When the name is taken, [ensure_unique] returns the candidate with
    the least number from 2 on that is free: every candidate with a smaller
    number is in [used], the one returned is not, and it is the one name
    added to [used]. *)
Theorem ensure_unique_least_number (name : pystr) (used : gset pystr) :
  name ∈ used ->
  exists j,
    (2 <= j)
    /\ (App.ensure_unique name used
        = Ok (App.candidate (stem name) (extension name) j,
              {[App.candidate (stem name) (extension name) j]} ∪ used))
    /\ (App.candidate (stem name) (extension name) j ∉ used)
    /\ (forall m, 2 <= m < j -> App.candidate (stem name) (extension name) m ∈ used).
Proof.
  intros Hin.
  destruct (ensure_unique_spec name used) as (c & Hrun & _ & _ & _).
  assert (exists j, (2 <= j) /\ (c = App.candidate (stem name) (extension name) j)
                    /\ (c ∉ used)
                    /\ (forall m, 2 <= m < j ->
                        App.candidate (stem name) (extension name) m ∈ used))
    as (j & Hj & -> & Hfree & Hbelow).
  { revert Hrun. unfold App.ensure_unique, App.ensure_unique_fuel, stem, extension.
    destruct (splitext name) as [base ext]. simpl fst. simpl snd.
    rewrite bool_decide_eq_true_2 by exact Hin.
    destruct (App.probe (S (size used)) base ext used 2) as [c'|] eqn:Hp; [|discriminate].
    intros [= <-]. apply (probe_least _ _ _ _ _ _ Hp). }
  exists j. auto.
Qed.

Lemma ensure_unique_least_number_witness :
  exists j,
    (2 <= j)
    /\ (App.ensure_unique (lit "x.txt") {[ lit "x.txt"; lit "x_2.txt" ]}
        = Ok (App.candidate (stem (lit "x.txt")) (extension (lit "x.txt")) j,
              {[App.candidate (stem (lit "x.txt")) (extension (lit "x.txt")) j]}
              ∪ {[ lit "x.txt"; lit "x_2.txt" ]}))
    /\ (App.candidate (stem (lit "x.txt")) (extension (lit "x.txt")) j
        ∉ ({[ lit "x.txt"; lit "x_2.txt" ]} : gset pystr))
    /\ (forall m, 2 <= m < j ->
        App.candidate (stem (lit "x.txt")) (extension (lit "x.txt")) m
        ∈ ({[ lit "x.txt"; lit "x_2.txt" ]} : gset pystr)).
Proof.
  apply (ensure_unique_least_number (lit "x.txt") {[ lit "x.txt"; lit "x_2.txt" ]}).
  apply elem_of_union_l, elem_of_singleton. reflexivity.
Defined.

(** * What the entries hold *)

Lemma first_string_cell_nonblank (row : list cell) (text : pystr) :
  App.first_string_cell row = Some text -> strip text <> [].
Proof.
  induction row as [|v row IH]; simpl; [discriminate|].
  destruct v as [s| | |]; try exact IH.
  destruct (strip s) as [|c r] eqn:E; [exact IH|].
  intros [= <-]. rewrite E. discriminate.
Qed.

Lemma first_nonempty_str_nonblank (row : list cell) (text : pystr) :
  TxtToCsv.first_nonempty_str row = Some text -> strip text <> [].
Proof.
  induction row as [|v row IH]; simpl; [discriminate|].
  destruct v as [s| | |]; try exact IH.
  destruct (strip s) as [|c r] eqn:E; [exact IH|].
  intros [= <-]. rewrite <- E. rewrite (trimmed_strip _ (strip_trimmed s)).
  rewrite E. discriminate.
Qed.

Lemma select_text_nonblank o row text :
  TxtToCsv.select_text o row = Some text -> strip text <> [].
Proof.
  unfold TxtToCsv.select_text. destruct (TxtToCsv.text_mode o).
  - destruct (Series_get row (TxtToCsv.text_col o)) as [[s| | |]|]; try discriminate.
    destruct (strip s) as [|c r] eqn:E; [discriminate|].
    intros [= <-]. rewrite E. discriminate.
  - apply first_nonempty_str_nonblank.
Qed.

Lemma texts_snoc (l : list zip_entry) (e : zip_entry) :
  texts (l ++ [e]) = texts l ++ [entry_text e].
Proof. unfold texts. rewrite List.map_app. reflexivity. Qed.

Lemma App_selected_nonblank rows :
  Forall (fun text => strip text <> []) (App_selected rows).
Proof.
  induction rows as [|[i row] rows IH]; simpl; [constructor|].
  destruct (App.first_string_cell (values row)) as [text|] eqn:E; [|exact IH].
  constructor; [eapply first_string_cell_nonblank, E | exact IH].
Qed.

Lemma TxtToCsv_selected_nonblank o rows :
  Forall (fun text => strip text <> []) (TxtToCsv_selected o rows).
Proof.
  induction rows as [|[i row] rows IH]; simpl; [constructor|].
  destruct (TxtToCsv.select_text o row) as [text|] eqn:E; [|exact IH].
  constructor; [eapply select_text_nonblank, E | exact IH].
Qed.

Lemma App_loop_texts fc rows :
  forall st st',
    App_inv st ->
    App.loop fc st rows = Ok st' ->
    texts (App.zf st') = texts (App.zf st) ++ App_selected rows.
Proof.
  induction rows as [|[i row] rows IH]; intros st st' Hinv Hrun.
  - simpl in Hrun. injection Hrun as <-. simpl. rewrite app_nil_r. reflexivity.
  - rewrite App_loop_cons in Hrun.
    destruct (App.body fc st (i, row)) as [st1|err] eqn:Hbody; simpl in Hrun; [|discriminate].
    simpl App_selected.
    destruct (App.first_string_cell (values row)) as [text|] eqn:Htext.
    + destruct (App_body_writes fc st i row text st1 Hinv Htext Hbody)
        as (name & e & _ & _ & Hzf & Hinv1).
      rewrite (IH _ _ Hinv1 Hrun), Hzf, texts_snoc. simpl.
      rewrite <- app_assoc. reflexivity.
    + unfold App.body in Hbody. rewrite Htext in Hbody. injection Hbody as <-.
      apply IH; assumption.
Qed.

Lemma TxtToCsv_loop_texts o rows :
  forall st,
    texts (TxtToCsv.zf (TxtToCsv.loop o st rows))
    = texts (TxtToCsv.zf st) ++ TxtToCsv_selected o rows.
Proof.
  induction rows as [|[i row] rows IH]; intros st.
  - simpl. rewrite app_nil_r. reflexivity.
  - rewrite TxtToCsv_loop_cons, IH. simpl TxtToCsv_selected. unfold TxtToCsv.body.
    destruct (TxtToCsv.select_text o row) as [[|c t]|] eqn:Htext.
    + exfalso. apply (select_text_nonempty _ _ _ Htext). reflexivity.
    + simpl. rewrite texts_snoc. simpl. rewrite <- app_assoc. reflexivity.
    + reflexivity.
Qed.

(** X9. The contents of the entries [txt_to_csv.py] writes are the texts
    it selects for the rows that have one, in row order; none of them is
    blank, so the guard of line 155 only skips rows without a text. *)
Theorem TxtToCsv_archive_texts (o : TxtToCsv.options) (df : DataFrame) :
  texts (TxtToCsv.archive (TxtToCsv.convert o df)) = TxtToCsv_selected o (iterrows df)
  /\ Forall (fun text => strip text <> []) (texts (TxtToCsv.archive (TxtToCsv.convert o df))).
Proof.
  unfold TxtToCsv.convert. simpl. rewrite TxtToCsv_loop_texts. simpl.
  split; [reflexivity | apply TxtToCsv_selected_nonblank].
Qed.

(** * Entry names stay legal *)

Lemma splitext_join (name : pystr) : stem name ++ extension name = name.
Proof.
  unfold stem, extension, splitext.
  destruct (rfind SLASH name <? rfind DOT name)%Z; [|apply app_nil_r].
  destruct (existsb _ _); [apply firstn_skipn | apply app_nil_r].
Qed.

Lemma legal_stem_extension (name : pystr) :
  legal name -> legal (stem name) /\ legal (extension name).
Proof.
  intros H. rewrite <- (splitext_join name) in H. apply Forall_app in H. exact H.
Qed.

Lemma candidate_sound (name : pystr) (i : N) :
  legal name -> sound_name (App.candidate (stem name) (extension name) i).
Proof.
  intros H. destruct (legal_stem_extension name H) as [Hs He].
  unfold App.candidate. split.
  - intros E. apply app_eq_nil in E as [_ E]. discriminate.
  - apply legal_app; [exact Hs|]. apply legal_app; [repeat constructor|].
    apply legal_app; [apply legal_str_of_int | exact He].
Qed.

Lemma App_resolve_sound fc i row name :
  App.resolve fc i row = Ok name -> sound_name name.
Proof.
  unfold App.resolve. destruct (App.raw_name fc i row) as [raw|]; simpl; [|discriminate].
  intros [= <-]. apply App_sanitize_legal.
Qed.

Lemma App_resolved_sound fc rows :
  forall R, App_resolved fc rows = Ok R -> Forall sound_name R.
Proof.
  induction rows as [|[i row] rows IH]; intros R; simpl.
  - intros [= <-]. constructor.
  - destruct (App.first_string_cell (values row)); [|apply IH].
    destruct (App.resolve fc i row) as [name|] eqn:Hname; simpl; [|discriminate].
    destruct (App_resolved fc rows) as [R'|]; simpl; [|discriminate].
    intros [= <-]. constructor; [eapply App_resolve_sound, Hname | apply IH; reflexivity].
Qed.

Lemma App_trace_sound (R : list pystr) :
  forall before E, App_trace before R E -> Forall sound_name R -> Forall sound_name E.
Proof.
  induction R as [|name R IH]; intros before [|e E] Htrace HR;
    try (destruct Htrace; fail); [constructor|].
  destruct Htrace as [Hstep Hrest].
  - inversion HR as [|? ? Hname HR']. subst. constructor; [|eapply IH; eassumption].
    destruct Hstep as (_ & Hsame & Hren).
    destruct (decide (name ∈ before)) as [Hin|Hout].
    + destruct (Hren Hin) as (j & _ & ->). apply candidate_sound, Hname.
    + rewrite (Hsame Hout). exact Hname.
Qed.

(** X10. Every entry name [app.py] writes, renamed or not, is non-empty and
    free of the characters the sanitizer replaces. *)
Theorem App_archive_names_sound (df : DataFrame) :
  exists r, App.convert df = Ok r /\ Forall sound_name (names (App.archive r)).
Proof.
  destruct (App_convert_total df) as (st & Hloop & Hconv).
  destruct (App_loop_trace _ _ _ _ App_inv_initial Hloop)
    as (R & E & HR & Hnames & _ & _ & _ & Htrace).
  eexists. split; [exact Hconv|]. simpl. rewrite Hnames. simpl.
  eapply App_trace_sound; [exact Htrace | eapply App_resolved_sound, HR].
Qed.

Lemma resolve_filename_sound o i row :
  legal (TxtToCsv.prefix o) -> legal (TxtToCsv.suffix o) ->
  sound_name (TxtToCsv.resolve_filename o i row).
Proof.
  intros Hp Hs. destruct (base_name_legal o i row) as [Hne Hl].
  assert (sound_name (TxtToCsv.prefix o ++ TxtToCsv.base_name o i row ++ TxtToCsv.suffix o))
    as [Hpre Hlp].
  { split.
    - intros E. apply app_eq_nil in E as [_ E]. apply app_eq_nil in E as [E _]. contradiction.
    - apply legal_app; [exact Hp|]. apply legal_app; assumption. }
  unfold TxtToCsv.resolve_filename, TxtToCsv.ensure_txt_suffix.
  destruct (endswith _ _); [split; assumption|]. split.
  - intros E. apply app_eq_nil in E as [E _]. contradiction.
  - apply legal_app; [exact Hlp | repeat constructor].
Qed.

Lemma TxtToCsv_resolved_sound o rows :
  legal (TxtToCsv.prefix o) -> legal (TxtToCsv.suffix o) ->
  Forall sound_name (TxtToCsv_resolved o rows).
Proof.
  intros Hp Hs. induction rows as [|[i row] rows IH]; simpl; [constructor|].
  destruct (TxtToCsv.select_text o row) as [[|c t]|]; try exact IH.
  constructor; [apply resolve_filename_sound; assumption | exact IH].
Qed.

Lemma TxtToCsv_emitted_sound before name :
  sound_name name -> sound_name (TxtToCsv_emitted before name).
Proof.
  intros [Hne Hl]. unfold TxtToCsv_emitted.
  destruct (1 <? _); [|split; assumption].
  destruct (legal_stem_extension name Hl) as [Hs He]. split.
  - intros E. apply app_eq_nil in E as [_ E]. discriminate.
  - apply legal_app; [exact Hs|]. apply legal_app; [repeat constructor|].
    apply legal_app; [apply legal_str_of_int | exact He].
Qed.

Lemma TxtToCsv_emit_all_sound (R : list pystr) :
  forall before, Forall sound_name R -> Forall sound_name (TxtToCsv_emit_all before R).
Proof.
  induction R as [|name R IH]; intros before HR; simpl; [constructor|].
  inversion HR as [|? ? Hname HR']. subst.
  constructor; [apply TxtToCsv_emitted_sound, Hname | apply IH, HR'].
Qed.

(** X11. When prefix and suffix have none of the characters of
    [App.unsafe_chars], every entry name [txt_to_csv.py] writes, renamed or
    not, is non-empty and free of them. *)
Theorem TxtToCsv_archive_names_sound (o : TxtToCsv.options) (df : DataFrame) :
  legal (TxtToCsv.prefix o) ->
  legal (TxtToCsv.suffix o) ->
  Forall sound_name (names (TxtToCsv.archive (TxtToCsv.convert o df))).
Proof.
  intros Hp Hs.
  destruct (TxtToCsv_loop_trace o (iterrows df) TxtToCsv.initial [] TxtToCsv_inv_initial)
    as (E & Hnames & _ & _ & Htrace).
  unfold TxtToCsv.convert. simpl. rewrite Hnames, Htrace. simpl.
  apply TxtToCsv_emit_all_sound, TxtToCsv_resolved_sound; assumption.
Qed.

Lemma TxtToCsv_archive_names_sound_witness :
  Forall sound_name (names (TxtToCsv.archive (TxtToCsv.convert tagged_options collide_df))).
Proof.
  apply (TxtToCsv_archive_names_sound tagged_options collide_df); repeat constructor.
Defined.

(** * Runs without collisions *)

Lemma App_trace_distinct (R : list pystr) :
  forall before E, App_trace before R E -> NoDup (before ++ R) -> E = R.
Proof.
  induction R as [|name R IH]; intros before [|e E] Htrace Hnd;
    try (destruct Htrace; fail); [reflexivity|].
  destruct Htrace as [Hstep Hrest]. destruct Hstep as (_ & Hsame & _).
  assert (name ∉ before) as Hout.
  { apply NoDup_app in Hnd as (_ & Hdis & _). intros Hin.
    apply (Hdis name Hin). left. }
  rewrite (Hsame Hout) in *. f_equal.
  apply (IH (before ++ [name])); [exact Hrest|].
  rewrite <- app_assoc. exact Hnd.
Qed.

Lemma TxtToCsv_emit_all_distinct (R : list pystr) :
  forall before, NoDup (List.map stem (before ++ R)) -> TxtToCsv_emit_all before R = R.
Proof.
  induction R as [|name R IH]; intros before Hnd; simpl; [reflexivity|].
  rewrite List.map_app in Hnd. simpl in Hnd.
  assert (stem name ∉ List.map stem before) as Hout.
  { apply NoDup_app in Hnd as (_ & Hdis & _). intros Hin.
    apply (Hdis _ Hin). left. }
  rewrite (proj1 (TxtToCsv_emitted_cases before name) Hout). f_equal.
  apply IH. rewrite !List.map_app. simpl. rewrite <- app_assoc. exact Hnd.
Qed.

(** X13. When the rows of a run of [txt_to_csv.py] resolve to names with
    pairwise different stems, every entry is written under its resolved
    name. *)
Theorem TxtToCsv_distinct_stems_kept (o : TxtToCsv.options) (df : DataFrame) :
  NoDup (List.map stem (TxtToCsv_resolved o (iterrows df))) ->
  names (TxtToCsv.archive (TxtToCsv.convert o df)) = TxtToCsv_resolved o (iterrows df).
Proof.
  intros Hnd.
  destruct (TxtToCsv_loop_trace o (iterrows df) TxtToCsv.initial [] TxtToCsv_inv_initial)
    as (E & Hnames & _ & _ & Htrace).
  unfold TxtToCsv.convert. simpl. rewrite Hnames, Htrace. simpl.
  apply TxtToCsv_emit_all_distinct. exact Hnd.
Qed.

(** * Splitting names that end in [.txt] *)

Lemma rfind_from_app (c : N) (a b : pystr) :
  forall i acc,
    rfind_from c (a ++ b) i acc
    = rfind_from c b (i + Z.of_nat (length a))%Z (rfind_from c a i acc).
Proof.
  induction a as [|x a IH]; intros i acc; simpl.
  - rewrite Z.add_0_r. reflexivity.
  - rewrite IH. f_equal. lia.
Qed.

Lemma rfind_from_absent (c : N) (a : pystr) :
  Forall (fun x => x <> c) a -> forall i acc, rfind_from c a i acc = acc.
Proof.
  induction 1 as [|x a Hx _ IH]; intros i acc; simpl; [reflexivity|].
  rewrite IH. apply N.eqb_neq in Hx. rewrite Hx. reflexivity.
Qed.

Lemma legal_no_slash (w : pystr) : legal w -> Forall (fun x => x <> SLASH) w.
Proof.
  intros H. eapply Forall_impl; [exact H|]. intros x Hx ->. vm_compute in Hx. discriminate.
Qed.

Lemma splitext_txt (w : pystr) :
  Forall (fun x => x <> SLASH) w ->
  splitext (w ++ lit ".txt")
  = if has_non_dot w then (w, lit ".txt") else (w ++ lit ".txt", []).
Proof.
  intros Hw. unfold splitext, rfind.
  rewrite !rfind_from_app. rewrite (rfind_from_absent SLASH w Hw).
  change (rfind_from SLASH (lit ".txt") (0 + Z.of_nat (length w)) (-1))%Z with (-1)%Z.
  change (rfind_from DOT (lit ".txt") (0 + Z.of_nat (length w)) (rfind_from DOT w 0 (-1)))%Z
    with (0 + Z.of_nat (length w))%Z.
  replace (-1 <? 0 + Z.of_nat (length w))%Z with true by (symmetry; apply Z.ltb_lt; lia).
  unfold slice.
  replace (Z.to_nat (0 + Z.of_nat (length w) - (-1 + 1))) with (length w) by lia.
  replace (Z.to_nat (-1 + 1)) with 0%nat by lia.
  replace (Z.to_nat (0 + Z.of_nat (length w))) with (length w) by lia.
  change (drop 0 (w ++ lit ".txt")) with (w ++ lit ".txt").
  rewrite take_app_length, drop_app_length. reflexivity.
Qed.

(** * Digits *)

Lemma uint_digits (d : Decimal.uint) : Forall is_digit (lit (NilEmpty.string_of_uint d)).
Proof. induction d; simpl; constructor; try assumption; unfold is_digit; simpl; lia. Qed.

Lemma str_of_int_digits (n : N) : Forall is_digit (str_of_int n).
Proof. apply uint_digits. Qed.

Lemma str_of_int_nonempty (n : N) : str_of_int n <> [].
Proof.
  unfold str_of_int.
  assert (N.to_uint n <> Decimal.Nil) as H.
  { destruct n; simpl; [discriminate | apply DecimalPos.Unsigned.to_uint_nonnil]. }
  destruct (N.to_uint n); [contradiction | discriminate ..].
Qed.

(** [str(n)] ends with a digit. *)
Lemma str_of_int_last (n : N) :
  exists ds d, str_of_int n = ds ++ [d] /\ is_digit d.
Proof.
  pose proof (str_of_int_digits n) as Hd. pose proof (str_of_int_nonempty n) as Hne.
  destruct (str_of_int n) as [|x r] using rev_ind; [contradiction|].
  apply Forall_app in Hd as [_ Hd]. inversion Hd. eauto.
Qed.

Lemma endswith_last (s t : pystr) (d c : N) :
  endswith (s ++ [d]) (t ++ [c]) = true -> d = c.
Proof.
  unfold endswith, pystr_eqb. intros H. apply andb_true_iff in H as [_ H].
  apply bool_decide_eq_true_1 in H.
  pose proof (take_drop (length (s ++ [d]) - length (t ++ [c])) (s ++ [d])) as E.
  rewrite H, app_assoc in E. apply app_inj_tail in E as [_ E]. symmetry. exact E.
Qed.

Lemma digit_not_t (d : N) : is_digit d -> d <> 116 /\ lower_char d = d.
Proof.
  unfold is_digit, lower_char. intros H. split; [lia|].
  replace (65 <=? d) with false; [reflexivity|]. symmetry. apply N.leb_gt. lia.
Qed.

(** * Renaming and the [.txt] ending *)

(** X14. For a name [w.txt] without a slash in which [w] has a character
    other than a dot, [ensure_unique] returns [w.txt] or [w_N.txt] with
    [N >= 2]: the extension stays at the end. *)
Theorem ensure_unique_keeps_txt (w : pystr) (used : gset pystr) :
  Forall (fun x => x <> SLASH) w ->
  has_non_dot w = true ->
  exists c,
    App.ensure_unique (w ++ lit ".txt") used = Ok (c, {[c]} ∪ used)
    /\ (c = w ++ lit ".txt"
        \/ exists j, 2 <= j /\ c = w ++ lit "_" ++ str_of_int j ++ lit ".txt").
Proof.
  intros Hw Hdot.
  destruct (ensure_unique_spec (w ++ lit ".txt") used) as (c & Hrun & _ & Hsame & Hren).
  exists c. split; [exact Hrun|].
  destruct (decide (w ++ lit ".txt" ∈ used)) as [Hin|Hout]; [|left; apply Hsame, Hout].
  right. destruct (Hren Hin) as (j & Hj & ->). exists j. split; [exact Hj|].
  rewrite (splitext_txt w Hw), Hdot. reflexivity.
Qed.

Lemma ensure_unique_keeps_txt_witness :
  exists c,
    App.ensure_unique (lit "x" ++ lit ".txt") {[ lit "x.txt"; lit "x_2.txt" ]}
    = Ok (c, {[c]} ∪ {[ lit "x.txt"; lit "x_2.txt" ]})
    /\ (c = lit "x" ++ lit ".txt"
        \/ exists j, 2 <= j /\ c = lit "x" ++ lit "_" ++ str_of_int j ++ lit ".txt").
Proof.
  apply (ensure_unique_keeps_txt (lit "x") {[ lit "x.txt"; lit "x_2.txt" ]}).
  - repeat constructor; discriminate.
  - reflexivity.
Defined.

Lemma has_non_dot_false (w : pystr) :
  has_non_dot w = false -> Forall (fun x => x <> SLASH) w.
Proof.
  unfold has_non_dot. induction w as [|x w IH]; simpl; [constructor|].
  intros H. apply orb_false_iff in H as [Hx Hw].
  apply negb_false_iff, N.eqb_eq in Hx. subst x.
  constructor; [discriminate | apply IH, Hw].
Qed.

(** X15. For a taken name made of dots followed by [.txt], or [.txt]
    alone, [os.path.splitext] finds no extension and [ensure_unique] appends
    the number at the very end: the name returned no longer ends in
    [.txt]. *)
Theorem ensure_unique_drops_txt (w : pystr) (used : gset pystr) :
  has_non_dot w = false ->
  w ++ lit ".txt" ∈ used ->
  exists c j,
    App.ensure_unique (w ++ lit ".txt") used = Ok (c, {[c]} ∪ used)
    /\ 2 <= j
    /\ c = (w ++ lit ".txt") ++ lit "_" ++ str_of_int j
    /\ endswith c (lit ".txt") = false.
Proof.
  intros Hdot Hin.
  destruct (ensure_unique_spec (w ++ lit ".txt") used) as (c & Hrun & _ & _ & Hren).
  destruct (Hren Hin) as (j & Hj & Hc).
  rewrite (splitext_txt w (has_non_dot_false w Hdot)), Hdot in Hc. simpl fst in Hc.
  simpl snd in Hc. unfold App.candidate in Hc. rewrite app_nil_r in Hc.
  exists c, j. split; [exact Hrun|]. split; [exact Hj|]. split; [exact Hc|].
  rewrite Hc. destruct (str_of_int_last j) as (ds & d & -> & Hd).
  destruct (endswith _ _) eqn:E; [|reflexivity]. exfalso.
  rewrite !app_assoc in E. change (lit ".txt") with (lit ".tx" ++ [116]) in E at 2.
  apply endswith_last in E. destruct (digit_not_t d Hd) as [Hne _]. contradiction.
Qed.

Lemma ensure_unique_drops_txt_witness :
  exists c j,
    App.ensure_unique ([] ++ lit ".txt") {[ lit ".txt" ]} = Ok (c, {[c]} ∪ {[ lit ".txt" ]})
    /\ 2 <= j
    /\ c = ([] ++ lit ".txt") ++ lit "_" ++ str_of_int j
    /\ endswith c (lit ".txt") = false.
Proof.
  apply (ensure_unique_drops_txt [] {[ lit ".txt" ]}).
  - reflexivity.
  - apply elem_of_singleton. reflexivity.
Defined.

(** * Names by row number *)

Lemma nonspace_trimmed (s : pystr) :
  Forall (fun c => isspace c = false) s -> trimmed s.
Proof.
  intros H. split.
  - destruct H as [|c r Hc _]; [reflexivity | exact Hc].
  - induction H as [|c r Hc _ IH]; simpl; [reflexivity|].
    rewrite IH, Hc. destruct r; reflexivity.
Qed.

Lemma nonspace_spaced (s : pystr) :
  Forall (fun c => isspace c = false) s -> forall b, spaced b s = true.
Proof.
  induction 1 as [|c r Hc _ IH]; intros b; simpl; [reflexivity|].
  rewrite Hc. apply IH.
Qed.

Lemma digit_not_space (c : N) : is_digit c -> isspace c = false.
Proof.
  unfold is_digit, isspace. intros H.
  repeat (apply orb_false_iff; split);
    first [ apply andb_false_iff; first [left; apply N.leb_gt; lia | right; apply N.leb_gt; lia]
          | apply N.eqb_neq; lia ].
Qed.

Lemma numbered_name_nonspace (i : N) :
  Forall (fun c => isspace c = false) (numbered_name i).
Proof.
  unfold numbered_name. apply Forall_app. split; [repeat constructor|].
  apply Forall_app. split; [|repeat constructor].
  eapply Forall_impl; [apply str_of_int_digits|]. apply digit_not_space.
Qed.

Lemma numbered_name_legal (i : N) : legal (numbered_name i).
Proof.
  unfold numbered_name. apply legal_app; [repeat constructor|].
  apply legal_app; [apply legal_str_of_int | repeat constructor].
Qed.

Lemma numbered_name_sanitized (i : N) :
  App.sanitize_filename (numbered_name i) = numbered_name i.
Proof.
  apply App_sanitize_fixed.
  - apply nonspace_trimmed, numbered_name_nonspace.
  - apply numbered_name_legal.
  - apply nonspace_spaced, numbered_name_nonspace.
  - discriminate.
Qed.

Lemma numbered_name_inj (i j : N) : numbered_name i = numbered_name j -> i = j.
Proof.
  unfold numbered_name. intros H. apply app_inv_head, app_inv_tail, str_of_int_inj in H. lia.
Qed.

Lemma numbered_name_splitext (i : N) :
  splitext (numbered_name i) = (lit "row_" ++ str_of_int (i + 1), lit ".txt").
Proof.
  unfold numbered_name. rewrite app_assoc. rewrite splitext_txt.
  - reflexivity.
  - apply legal_no_slash, legal_app; [repeat constructor | apply legal_str_of_int].
Qed.

Lemma App_resolved_numbered rows :
  App_resolved None rows = Ok (App_row_names rows).
Proof.
  induction rows as [|[i row] rows IH]; [reflexivity|].
  destruct (App.first_string_cell (values row)) as [text|] eqn:E.
  - rewrite (App_resolved_text _ _ _ _ _ E), IH.
    change (App.resolve None i row) with (Ok (App.sanitize_filename (numbered_name i))).
    rewrite numbered_name_sanitized. simpl. rewrite E. reflexivity.
  - rewrite (App_resolved_skip _ _ _ _ E), IH. simpl. rewrite E. reflexivity.
Qed.

(** The names of the rows from index [i0] on carry numbers above [i0]. *)
Lemma App_row_names_from cols data :
  forall i0,
    Forall (fun n => exists i, i0 <= i /\ n = numbered_name i)
      (App_row_names (iterrows_from cols i0 data))
    /\ NoDup (App_row_names (iterrows_from cols i0 data)).
Proof.
  induction data as [|cells data IH]; intros i0; simpl; [split; constructor|].
  destruct (IH (N.succ i0)) as [Hall Hnd].
  assert (Forall (fun n => exists i, i0 <= i /\ n = numbered_name i)
            (App_row_names (iterrows_from cols (N.succ i0) data))) as Hall'.
  { eapply Forall_impl; [exact Hall|]. intros n (i & Hi & ->). exists i. split; [lia | reflexivity]. }
  destruct (App.first_string_cell _); [|split; assumption]. split.
  - constructor; [exists i0; split; [lia | reflexivity] | exact Hall'].
  - apply NoDup_cons. split; [|exact Hnd].
    intros Hin. rewrite Forall_forall in Hall. destruct (Hall _ Hin) as (i & Hi & E).
    apply numbered_name_inj in E. lia.
Qed.

Lemma row_name_no_txt (i : N) :
  endswith (lower (TxtToCsv.row_name i)) (lit ".txt") = false.
Proof.
  unfold TxtToCsv.row_name. destruct (str_of_int_last (i + 1)) as (ds & d & -> & Hd).
  destruct (endswith _ _) eqn:E; [|reflexivity]. exfalso.
  rewrite app_assoc, lower_app in E.
  destruct (digit_not_t d Hd) as [Hne Hlow].
  change (lower [d]) with [lower_char d] in E. rewrite Hlow in E.
  change (lit ".txt") with (lit ".tx" ++ [116]) in E.
  apply endswith_last in E. contradiction.
Qed.

Lemma resolve_filename_numbered o i row :
  TxtToCsv.filename_col o = TxtToCsv.NO_COLUMN ->
  TxtToCsv.prefix o = [] -> TxtToCsv.suffix o = [] ->
  TxtToCsv.resolve_filename o i row = numbered_name i.
Proof.
  intros Hc Hp Hs. unfold TxtToCsv.resolve_filename, TxtToCsv.base_name, pystr_eqb.
  rewrite Hc, Hp, Hs, bool_decide_eq_true_2 by reflexivity.
  rewrite app_nil_r. simpl app at 1. unfold TxtToCsv.ensure_txt_suffix.
  rewrite row_name_no_txt. unfold TxtToCsv.row_name, numbered_name.
  rewrite <- app_assoc. reflexivity.
Qed.

Lemma TxtToCsv_resolved_numbered o rows :
  TxtToCsv.filename_col o = TxtToCsv.NO_COLUMN ->
  TxtToCsv.prefix o = [] -> TxtToCsv.suffix o = [] ->
  TxtToCsv_resolved o rows = TxtToCsv_row_names o rows.
Proof.
  intros Hc Hp Hs. induction rows as [|[i row] rows IH]; simpl; [reflexivity|].
  destruct (TxtToCsv.select_text o row) as [[|c t]|] eqn:E; try exact IH.
  - exfalso. apply (select_text_nonempty _ _ _ E). reflexivity.
  - rewrite IH, resolve_filename_numbered by assumption. reflexivity.
Qed.

Lemma TxtToCsv_row_names_from o cols data :
  forall i0,
    Forall (fun n => exists i, i0 <= i /\ n = numbered_name i)
      (TxtToCsv_row_names o (iterrows_from cols i0 data))
    /\ NoDup (List.map stem (TxtToCsv_row_names o (iterrows_from cols i0 data))).
Proof.
  induction data as [|cells data IH]; intros i0; simpl; [split; constructor|].
  destruct (IH (N.succ i0)) as [Hall Hnd].
  assert (Forall (fun n => exists i, i0 <= i /\ n = numbered_name i)
            (TxtToCsv_row_names o (iterrows_from cols (N.succ i0) data))) as Hall'.
  { eapply Forall_impl; [exact Hall|]. intros n (i & Hi & ->). exists i. split; [lia | reflexivity]. }
  destruct (TxtToCsv.select_text o _); [|split; assumption]. split.
  - constructor; [exists i0; split; [lia | reflexivity] | exact Hall'].
  - simpl. apply NoDup_cons. split; [|exact Hnd].
    intros Hin. apply list_elem_of_In, List.in_map_iff in Hin as (n & Hst & Hin).
    rewrite Forall_forall in Hall. apply list_elem_of_In in Hin.
    destruct (Hall _ Hin) as (i & Hi & ->).
    unfold stem in Hst. rewrite !numbered_name_splitext in Hst. cbn [fst] in Hst.
    apply app_inv_head, str_of_int_inj in Hst. lia.
Qed.

(** * A run without collisions *)

Lemma TxtToCsv_distinct_stems_kept_witness :
  names (TxtToCsv.archive (TxtToCsv.convert plain_options distinct_df))
  = TxtToCsv_resolved plain_options (iterrows distinct_df).
Proof.
  apply (TxtToCsv_distinct_stems_kept plain_options distinct_df).
  apply NoDup_cons. split; [|apply NoDup_singleton].
  intros H. apply list_elem_of_singleton in H. vm_compute in H. discriminate.
Defined.

(** * Reading the upload *)

Lemma try_encodings_first (pd : encoding -> option pystr -> parse) (sep : option pystr)
  (pre : list encoding) (enc : encoding) (post : list encoding) (df : DataFrame) :
  Forall (fun e => exists u m, pd e sep = Failed u m) pre ->
  pd enc sep = Parsed df ->
  forall tried, TxtToCsvFront.try_encodings pd (pre ++ enc :: post) sep tried = inl df.
Proof.
  intros Hpre Henc. induction Hpre as [|e pre (u & m & He) _ IH]; intros tried; simpl.
  - rewrite Henc. reflexivity.
  - rewrite He. apply IH.
Qed.

Lemma try_encodings_exhausted (pd : encoding -> option pystr -> parse) (sep : option pystr)
  (encs : list encoding) :
  forall tried tried',
    TxtToCsvFront.try_encodings pd encs sep tried = inr tried' ->
    Forall (fun e => exists u m, pd e sep = Failed u m) encs
    /\ List.map fst tried' = List.map fst tried ++ encs.
Proof.
  induction encs as [|e encs IH]; intros tried tried'; simpl.
  - intros [= <-]. split; [constructor | rewrite app_nil_r; reflexivity].
  - destruct (pd e sep) as [df|u m] eqn:He; [discriminate|]. intros H.
    destruct (IH _ _ H) as [Hall Hmap]. split.
    + constructor; [eauto | exact Hall].
    + rewrite Hmap, List.map_app, <- app_assoc. reflexivity.
Qed.

Lemma try_encodings_all_fail (pd : encoding -> option pystr -> parse) (sep : option pystr)
  (encs : list encoding) :
  Forall (fun e => exists u m, pd e sep = Failed u m) encs ->
  forall tried, exists tried',
    TxtToCsvFront.try_encodings pd encs sep tried = inr tried'.
Proof.
  induction 1 as [|e encs (u & m & He) _ IH]; intros tried; simpl; [eauto|].
  rewrite He. apply IH.
Qed.

(** X18. In the automatic mode [safe_read_csv] returns the frame of the
    first encoding of the chain utf-8, cp949, euc-kr, latin1 that
    [pd.read_csv] accepts, whatever the later ones would give. *)
Theorem safe_read_csv_first_success (pd : encoding -> option pystr -> parse)
  (sep_choice : option pystr) (pre : list encoding) (enc : encoding)
  (post : list encoding) (df : DataFrame) :
  TxtToCsvFront.chain = pre ++ enc :: post ->
  Forall (fun e => exists u m, pd e (TxtToCsvFront.sep_or_none sep_choice) = Failed u m) pre ->
  pd enc (TxtToCsvFront.sep_or_none sep_choice) = Parsed df ->
  TxtToCsvFront.safe_read_csv pd TxtToCsvFront.AutoDetect sep_choice
  = TxtToCsvFront.Returned df.
Proof.
  intros Hchain Hpre Henc. unfold TxtToCsvFront.safe_read_csv. rewrite Hchain.
  rewrite (try_encodings_first pd _ pre enc post df Hpre Henc). reflexivity.
Qed.

Lemma safe_read_csv_first_success_witness :
  TxtToCsvFront.safe_read_csv legacy_reader TxtToCsvFront.AutoDetect (Some (lit ";"))
  = TxtToCsvFront.Returned distinct_df.
Proof.
  apply (safe_read_csv_first_success legacy_reader (Some (lit ";"))
           [utf_8] cp949 [euc_kr; latin1] distinct_df).
  - reflexivity.
  - constructor; [|constructor]. exists true, (lit "invalid start byte"). reflexivity.
  - reflexivity.
Defined.

(** X19. In the automatic mode [safe_read_csv] raises its [RuntimeError]
    exactly when all four encodings fail, and the message is then always the
    same: the fixed text followed by the four encodings in chain order. *)
Theorem safe_read_csv_error (pd : encoding -> option pystr -> parse)
  (sep_choice : option pystr) (message : pystr) :
  TxtToCsvFront.safe_read_csv pd TxtToCsvFront.AutoDetect sep_choice
  = TxtToCsvFront.RuntimeError message
  <-> message = ALL_FAILED
      /\ Forall (fun e => exists u m,
                    pd e (TxtToCsvFront.sep_or_none sep_choice) = Failed u m)
           TxtToCsvFront.chain.
Proof.
  unfold TxtToCsvFront.safe_read_csv. split.
  - destruct (TxtToCsvFront.try_encodings pd TxtToCsvFront.chain _ []) as [df|tried] eqn:E;
      [discriminate|].
    intros [= <-]. destruct (try_encodings_exhausted _ _ _ _ _ E) as [Hall Hmap].
    split; [|exact Hall]. unfold ALL_FAILED. f_equal.
    rewrite <- (List.map_map fst encoding_name), Hmap. reflexivity.
  - intros [-> Hall].
    destruct (try_encodings_all_fail pd _ _ Hall []) as [tried E]. rewrite E.
    destruct (try_encodings_exhausted _ _ _ _ _ E) as [_ Hmap].
    unfold ALL_FAILED. do 2 f_equal.
    rewrite <- (List.map_map fst encoding_name), Hmap. reflexivity.
Qed.

Lemma safe_read_csv_error_witness :
  TxtToCsvFront.safe_read_csv failing_reader TxtToCsvFront.AutoDetect None
  = TxtToCsvFront.RuntimeError ALL_FAILED.
Proof.
  apply (safe_read_csv_error failing_reader None ALL_FAILED).
  split; [reflexivity|]. repeat constructor; exists false, (lit "tokenizing"); reflexivity.
Defined.

(** X20. With the comma as separator, whenever [read_csv_safely] of
    [app.py] returns a frame the automatic mode of [safe_read_csv] returns
    one too, and the same one if the utf-8 read succeeded. *)
Theorem safe_read_csv_recovers_more (pd : encoding -> option pystr -> parse)
  (df : DataFrame) :
  AppFront.read_csv_safely pd = Some df ->
  exists df',
    TxtToCsvFront.safe_read_csv pd TxtToCsvFront.AutoDetect (Some (lit ","))
    = TxtToCsvFront.Returned df'
    /\ (pd utf_8 (Some (lit ",")) = Parsed df -> df' = df).
Proof.
  unfold AppFront.read_csv_safely, TxtToCsvFront.safe_read_csv, AppFront.DEFAULT_SEP.
  change (TxtToCsvFront.sep_or_none (Some (lit ","))) with (Some (lit ",")).
  unfold TxtToCsvFront.chain, TxtToCsvFront.try_encodings.
  destruct (pd utf_8 (Some (lit ","))) as [d0|[|] m0] eqn:E0.
  - intros [= <-]. exists d0. split; [reflexivity | intros _; reflexivity].
  - destruct (pd latin1 (Some (lit ","))) as [d3|u3 m3] eqn:E3; [|discriminate].
    intros [= <-].
    destruct (pd cp949 (Some (lit ","))) as [d1|u1 m1];
      [exists d1; split; [reflexivity | discriminate]|].
    destruct (pd euc_kr (Some (lit ","))) as [d2|u2 m2];
      [exists d2; split; [reflexivity | discriminate]|].
    exists d3. split; [reflexivity | discriminate].
  - discriminate.
Qed.

Lemma safe_read_csv_recovers_more_witness :
  exists df',
    TxtToCsvFront.safe_read_csv legacy_reader TxtToCsvFront.AutoDetect (Some (lit ","))
    = TxtToCsvFront.Returned df'
    /\ (legacy_reader utf_8 (Some (lit ",")) = Parsed unnamed_df -> df' = unnamed_df).
Proof.
  apply (safe_read_csv_recovers_more legacy_reader unnamed_df).
  reflexivity.
Defined.

(** * The filename select box *)

Lemma candidate_filename_cols_In (cols : list pystr) (c : pystr) :
  In c (TxtToCsvFront.candidate_filename_cols cols) -> In c cols.
Proof.
  unfold TxtToCsvFront.candidate_filename_cols.
  destruct (List.filter _ cols) as [|x l] eqn:E; [exact id|].
  rewrite <- E. intros H. apply List.filter_In in H. apply H.
Qed.

(** X21. Every entry of the filename select box other than the one for no
    column is a column of the table, so for every row the lookup of line 160
    finds the cell and the default of [row.get] is not used. *)
Theorem filename_option_always_found (o : TxtToCsv.options) (df : DataFrame)
  (i : N) (row : Series) :
  In (TxtToCsv.filename_col o) (TxtToCsvFront.filename_options (columns df)) ->
  TxtToCsv.filename_col o <> TxtToCsv.NO_COLUMN ->
  In (i, row) (iterrows df) ->
  In (TxtToCsv.filename_col o) (columns df)
  /\ exists v,
       lookup_label row (TxtToCsv.filename_col o) = Some v
       /\ TxtToCsv.base_name o i row = TxtToCsv.sanitize_filename (strip (py_str v)).
Proof.
  intros Hopt Hne Hrow. unfold TxtToCsvFront.filename_options in Hopt.
  destruct Hopt as [E|Hin]; [congruence|].
  apply candidate_filename_cols_In in Hin. split; [exact Hin|].
  apply iterrows_from_rows in Hrow as (cells & _ & Hr). simpl in Hr. subst row.
  destruct (lookup_label_present _ _ Hin cells) as [v Hv]. exists v. split; [exact Hv|].
  unfold TxtToCsv.base_name, pystr_eqb. rewrite bool_decide_eq_false_2 by exact Hne.
  rewrite Hv. simpl. apply py_or_sanitize.
Qed.

Lemma filename_option_always_found_witness :
  In (lit "filename") (columns distinct_df)
  /\ exists v,
       lookup_label (label_row (columns distinct_df) [CStr (lit "a"); CStr (lit "one")])
         (lit "filename") = Some v
       /\ TxtToCsv.base_name plain_options 0
            (label_row (columns distinct_df) [CStr (lit "a"); CStr (lit "one")])
          = TxtToCsv.sanitize_filename (strip (py_str v)).
Proof.
  apply (filename_option_always_found plain_options distinct_df 0).
  - right. left. reflexivity.
  - vm_compute. discriminate.
  - left. reflexivity.
Defined.

(** X22. The column [app.py] takes as filename column is the first one
    [txt_to_csv.py] offers, and [txt_to_csv.py] then offers only columns
    whose lowered label is [filename]. *)
Theorem filename_column_offered_first (cols : list pystr) (c : pystr) :
  App.find_filename_col cols = Some c ->
  exists rest,
    TxtToCsvFront.candidate_filename_cols cols = c :: rest
    /\ Forall (fun x => lower x = lit "filename") (c :: rest).
Proof.
  unfold App.find_filename_col, TxtToCsvFront.candidate_filename_cols.
  induction cols as [|x cols IH]; simpl; [discriminate|].
  destruct (pystr_eqb (lower x) (lit "filename")) eqn:E.
  - intros [= <-]. exists (List.filter (fun c => pystr_eqb (lower c) (lit "filename")) cols).
    split; [reflexivity|]. constructor.
    + apply bool_decide_eq_true_1 in E. exact E.
    + apply Forall_forall. intros y Hy. apply list_elem_of_In, List.filter_In in Hy as [_ Hy].
      apply bool_decide_eq_true_1 in Hy. exact Hy.
  - intros H. destruct (IH H) as (rest & Hrest & Hall).
    destruct (List.filter _ cols) as [|y l] eqn:Ef.
    + apply List.find_some in H as [Hin Hc].
      assert (In c (List.filter (fun c => pystr_eqb (lower c) (lit "filename")) cols)) as Hf
        by (apply List.filter_In; split; assumption).
      rewrite Ef in Hf. destruct Hf.
    + exists rest. split; [exact Hrest | exact Hall].
Qed.

Lemma filename_column_offered_first_witness :
  exists rest,
    TxtToCsvFront.candidate_filename_cols [lit "id"; lit "FileName"; lit "filename"]
    = lit "FileName" :: rest
    /\ Forall (fun x => lower x = lit "filename") (lit "FileName" :: rest).
Proof.
  apply (filename_column_offered_first [lit "id"; lit "FileName"; lit "filename"]).
  reflexivity.
Defined.

(** * Rows of one name in [txt_to_csv.py] *)

Lemma occurrences_app (x : pystr) (a b : list pystr) :
  occurrences x (a ++ b) = occurrences x a + occurrences x b.
Proof. unfold occurrences. rewrite List.filter_app, length_app. lia. Qed.

Lemma occurrences_cons_same (x : pystr) (l : list pystr) :
  occurrences x (x :: l) = 1 + occurrences x l.
Proof.
  unfold occurrences, pystr_eqb. simpl.
  rewrite bool_decide_eq_true_2 by reflexivity. simpl. lia.
Qed.

(** Between two rows of one name the count of its stem grows. *)
Lemma occurrences_between (R : list pystr) (j k : nat) (name : pystr) :
  (j < k)%nat -> R !! j = Some name ->
  occurrences (stem name) (List.map stem (take j R))
  < occurrences (stem name) (List.map stem (take k R)).
Proof.
  intros Hjk Hj.
  assert (take k R = take j R ++ name :: take (k - S j) (drop (S j) R)) as ->.
  { rewrite <- (take_drop_middle R j name Hj) at 1.
    rewrite take_app_ge by (rewrite length_take; lia).
    assert (length (take j R) = j) as Hlen.
    { rewrite length_take. apply lookup_lt_Some in Hj. lia. }
    rewrite Hlen. replace (k - j)%nat with (S (k - S j)) by lia. reflexivity. }
  rewrite List.map_app, occurrences_app. simpl. rewrite occurrences_cons_same. lia.
Qed.

Lemma TxtToCsv_emitted_later (before before' : list pystr) (name : pystr) :
  occurrences (stem name) (List.map stem before)
  < occurrences (stem name) (List.map stem before') ->
  TxtToCsv_emitted before name <> TxtToCsv_emitted before' name.
Proof.
  intros Hlt. unfold TxtToCsv_emitted.
  set (n := occurrences (stem name) (List.map stem before)) in *.
  set (n' := occurrences (stem name) (List.map stem before')) in *.
  replace (1 <? n' + 1) with true by (symmetry; apply N.ltb_lt; lia).
  destruct (1 <? n + 1) eqn:E.
  - intros H. apply app_inv_head, app_inv_head, app_inv_tail, str_of_int_inj in H. lia.
  - intros H. apply (f_equal (@length N)) in H.
    rewrite <- (splitext_join name) in H at 1. rewrite !length_app in H.
    simpl in H. lia.
Qed.

(** X24. Two rows of a run of [txt_to_csv.py] that resolve to the same name
    are written under different names. *)
Theorem TxtToCsv_same_name_distinct (o : TxtToCsv.options) (df : DataFrame)
  (j k : nat) (name : pystr) :
  (j < k)%nat ->
  TxtToCsv_resolved o (iterrows df) !! j = Some name ->
  TxtToCsv_resolved o (iterrows df) !! k = Some name ->
  exists ej ek,
    names (TxtToCsv.archive (TxtToCsv.convert o df)) !! j = Some ej
    /\ names (TxtToCsv.archive (TxtToCsv.convert o df)) !! k = Some ek
    /\ ej <> ek.
Proof.
  intros Hjk Hj Hk.
  destruct (TxtToCsv_loop_trace o (iterrows df) TxtToCsv.initial [] TxtToCsv_inv_initial)
    as (E & Hnames & _ & _ & Htrace).
  unfold TxtToCsv.convert. simpl TxtToCsv.archive. rewrite Hnames, Htrace. simpl app.
  rewrite (TxtToCsv_emit_all_lookup _ [] j name Hj), (TxtToCsv_emit_all_lookup _ [] k name Hk).
  simpl app. eexists. eexists. split; [reflexivity|]. split; [reflexivity|].
  apply TxtToCsv_emitted_later, occurrences_between; assumption.
Qed.

Lemma TxtToCsv_same_name_distinct_witness :
  exists ej ek,
    names (TxtToCsv.archive (TxtToCsv.convert plain_options collide_df)) !! 0%nat = Some ej
    /\ names (TxtToCsv.archive (TxtToCsv.convert plain_options collide_df)) !! 1%nat = Some ek
    /\ ej <> ek.
Proof.
  apply (TxtToCsv_same_name_distinct plain_options collide_df 0 1 (lit "x.txt")).
  - lia.
  - reflexivity.
  - reflexivity.
Defined.

(** * The run of [app.py] and its writes *)

Lemma AppScript_resolve_int fc i row :
  AppScript.resolve AppScript.int_succ fc i row = App.resolve fc i row.
Proof. destruct fc; reflexivity. Qed.

(** An iteration with a [zf.writestr] that may raise ends as the iteration
    whose writes return, unless one of the calls it makes is refused. *)
Lemma AppScript_body_exact acc fc st i row st1 :
  App.body fc st (i, row) = Ok st1 ->
  exists new,
    App.zf st1 = App.zf st ++ new
    /\ AppScript.body AppScript.int_succ acc fc st (i, row)
       = if all_written acc new then Ok st1 else Raise WritestrError.
Proof.
  unfold App.body, AppScript.body.
  replace (AppScript.resolve AppScript.int_succ fc i row) with (App.resolve fc i row)
    by (symmetry; apply AppScript_resolve_int).
  destruct (App.first_string_cell (values row)) as [text|].
  - destruct (App.resolve fc i row) as [name|]; simpl; [|discriminate].
    destruct (App.ensure_unique name (App.used_names st)) as [r|]; simpl; [|discriminate].
    intros [= <-]. simpl.
    exists [ {| entry_name := fst r; entry_text := text |} ]. split; [reflexivity|].
    unfold AppScript.writestr, all_written. simpl.
    destruct (acc (fst r) text); reflexivity.
  - intros [= <-]. exists []. rewrite app_nil_r. split; reflexivity.
Qed.

Lemma AppScript_loop_exact acc fc rows :
  forall st st',
    App.loop fc st rows = Ok st' ->
    exists new,
      App.zf st' = App.zf st ++ new
      /\ AppScript.loop AppScript.int_succ acc fc st rows
         = if all_written acc new then Ok st' else Raise WritestrError.
Proof.
  induction rows as [|[i row] rows IH]; intros st st' Hrun.
  - simpl in Hrun. injection Hrun as <-. exists []. rewrite app_nil_r. split; reflexivity.
  - rewrite App_loop_cons in Hrun.
    destruct (App.body fc st (i, row)) as [st1|] eqn:Hbody; simpl in Hrun; [|discriminate].
    destruct (AppScript_body_exact acc fc st i row st1 Hbody) as (new1 & Hzf1 & Hb).
    destruct (IH st1 st' Hrun) as (new2 & Hzf2 & Hl).
    exists (new1 ++ new2). split; [rewrite Hzf2, Hzf1, app_assoc; reflexivity|].
    change (AppScript.loop AppScript.int_succ acc fc st ((i, row) :: rows))
      with (bind (AppScript.body AppScript.int_succ acc fc st (i, row))
              (fun st1 => AppScript.loop AppScript.int_succ acc fc st1 rows)).
    rewrite Hb. unfold all_written in *. rewrite forallb_app.
    destruct (forallb _ new1); simpl; [exact Hl | reflexivity].
Qed.

Lemma iterrows_labelled_rows {label : Type} (index : list label) (df : DataFrame)
  (ir : label * Series) :
  In ir (iterrows_labelled index df) ->
  exists cells, snd ir = label_row (columns df) cells.
Proof.
  unfold iterrows_labelled. destruct ir as [i row]. intros H.
  apply in_combine_r in H. apply List.in_map_iff in H as (cells & <- & _).
  exists cells. reflexivity.
Qed.

Lemma App_loop_labelled (index : list N) (df : DataFrame) :
  exists st,
    App.loop (App.find_filename_col (columns df)) App.initial (iterrows_labelled index df)
    = Ok st.
Proof.
  apply App_loop_total. intros c ir Hc Hin. apply find_filename_col_In in Hc.
  apply iterrows_labelled_rows in Hin as (cells & ->).
  destruct (lookup_label_present _ _ Hc cells) as [v ->]. discriminate.
Qed.

(** The run on a frame with integer labels makes the calls of the loop
    whose writes return, and ends with them or with the first refusal. *)
Lemma AppScript_convert_exact acc (index : list N) (df : DataFrame) :
  exists st,
    App.loop (App.find_filename_col (columns df)) App.initial (iterrows_labelled index df)
    = Ok st
    /\ AppScript.convert AppScript.int_succ acc index df = run_outcome acc df (App.zf st).
Proof.
  destruct (App_loop_labelled index df) as [st Hst]. exists st. split; [exact Hst|].
  destruct (AppScript_loop_exact acc _ _ _ _ Hst) as (new & Hzf & Hrun).
  simpl in Hzf. subst new.
  destruct (App_loop_trace _ _ _ _ App_inv_initial Hst) as (_ & _ & _ & _ & _ & _ & Hinv & _).
  destruct Hinv as (_ & _ & Hcr).
  unfold AppScript.convert, run_outcome. rewrite Hrun.
  destruct (all_written acc (App.zf st)); simpl; [|reflexivity].
  rewrite Hcr. reflexivity.
Qed.

Lemma ZipInfo_filename_no_nul (name : pystr) :
  ~ In 0 name -> ZipInfo_filename name = name.
Proof.
  induction name as [|c r IH]; simpl; [reflexivity|]. intros H.
  destruct (N.eqb_spec c 0) as [->|_]; [exfalso; apply H; left; reflexivity|].
  rewrite IH; [reflexivity|]. intros Hin. apply H. right. exact Hin.
Qed.

Lemma namelist_no_nul (calls : list zip_entry) :
  Forall (fun name => ~ In 0 name) (names calls) -> namelist calls = names calls.
Proof.
  unfold namelist, names. induction calls as [|e calls IH]; simpl; [reflexivity|].
  intros H. inversion H as [|? ? He Hrest]. subst.
  rewrite (ZipInfo_filename_no_nul _ He), (IH Hrest). reflexivity.
Qed.





(** The names of the two rows differ, the members they become do not. *)
Example nul_names_scenario :
  AppScript.convert AppScript.int_succ (fun _ _ => true) [0; 1] nul_df
  = Ok {| App.rowsProcessed := 2;
          App.filesCreated := 2;
          App.archive := [ {| entry_name := [97; 0; 98] ++ lit ".txt";
                              entry_text := [97; 0; 98] |};
                           {| entry_name := [97; 0; 99] ++ lit ".txt";
                              entry_text := [97; 0; 99] |} ] |}
  /\ namelist [ {| entry_name := [97; 0; 98] ++ lit ".txt"; entry_text := [97; 0; 98] |};
                {| entry_name := [97; 0; 99] ++ lit ".txt"; entry_text := [97; 0; 99] |} ]
     = [lit "a"; lit "a"].
Proof. split; vm_compute; reflexivity. Qed.

(** X8. The texts a run of [app.py] hands to [zf.writestr], for a frame
    whose index labels are non-negative integers and for any behaviour of
    [zf.writestr], are the texts [first_string_cell] selects for the rows
    that have one, in row order, and none of them is blank; the run ends
    with its report when every call returns and with the exception of the
    call that raises otherwise. *)
Theorem App_archive_texts (writestr_returns : pystr -> pystr -> bool)
  (index : list N) (df : DataFrame) :
  exists calls,
    AppScript.convert AppScript.int_succ writestr_returns index df
    = run_outcome writestr_returns df calls
    /\ texts calls = App_selected (iterrows_labelled index df)
    /\ Forall (fun text => strip text <> []) (texts calls).
Proof.
  destruct (AppScript_convert_exact writestr_returns index df) as (st & Hst & Hconv).
  exists (App.zf st). split; [exact Hconv|].
  rewrite (App_loop_texts _ _ _ _ App_inv_initial Hst). simpl.
  split; [reflexivity | apply App_selected_nonblank].
Qed.

(** X12. A run of [app.py], for a frame whose index labels are
    non-negative integers and for any behaviour of [zf.writestr], resolves
    its rows to names and ends with its report or with the exception of the
    call that raises; when the resolved names are pairwise different they
    are the names handed to [zf.writestr], so [ensure_unique] renames
    nothing, and when none of them holds a NUL they are the member names
    too. *)
Theorem App_distinct_names_kept (writestr_returns : pystr -> pystr -> bool)
  (index : list N) (df : DataFrame) :
  exists R calls,
    App_resolved (App.find_filename_col (columns df)) (iterrows_labelled index df) = Ok R
    /\ AppScript.convert AppScript.int_succ writestr_returns index df
       = run_outcome writestr_returns df calls
    /\ (NoDup R ->
        names calls = R
        /\ (Forall (fun name => ~ In 0 name) R -> namelist calls = R)).
Proof.
  destruct (AppScript_convert_exact writestr_returns index df) as (st & Hst & Hconv).
  destruct (App_loop_trace _ _ _ _ App_inv_initial Hst)
    as (R & E & HR & Hnames & _ & _ & _ & Htrace).
  exists R, (App.zf st). split; [exact HR|]. split; [exact Hconv|].
  intros Hnd.
  assert (names (App.zf st) = R) as Hkept.
  { rewrite Hnames. simpl. eapply App_trace_distinct; [exact Htrace | exact Hnd]. }
  split; [exact Hkept|]. intros Hnul. rewrite namelist_no_nul; rewrite Hkept; trivial.
Qed.

Lemma App_distinct_names_kept_witness :
  exists R calls,
    App_resolved (App.find_filename_col (columns distinct_df))
      (iterrows_labelled [0; 1] distinct_df) = Ok R
    /\ AppScript.convert AppScript.int_succ (fun _ _ => true) [0; 1] distinct_df
       = run_outcome (fun _ _ => true) distinct_df calls
    /\ names calls = R
    /\ namelist calls = R.
Proof.
  destruct (App_distinct_names_kept (fun _ _ => true) [0; 1] distinct_df)
    as (R & calls & HR & Hrun & Hkept).
  exists R, calls. split; [exact HR|]. split; [exact Hrun|].
  vm_compute in HR. injection HR as <-.
  destruct Hkept as [Hnames Hlist].
  - apply (bool_decide_unpack _). vm_compute. exact I.
  - split; [exact Hnames|]. apply Hlist.
    repeat constructor; simpl; intuition discriminate.
Defined.

(** * Names by index label *)

Lemma App_row_names_labels (rows : list (N * Series)) (n : pystr) :
  In n (App_row_names rows) -> exists i, In i (List.map fst rows) /\ n = numbered_name i.
Proof.
  induction rows as [|[i row] rows IH]; simpl; [intros []|].
  destruct (App.first_string_cell (values row)).
  - intros [<-|H]; [exists i; split; [left; reflexivity | reflexivity]|].
    destruct (IH H) as (j & Hj & ->). exists j. split; [right; exact Hj | reflexivity].
  - intros H. destruct (IH H) as (j & Hj & ->). exists j. split; [right; exact Hj | reflexivity].
Qed.

Lemma App_row_names_distinct (rows : list (N * Series)) :
  NoDup (List.map fst rows) -> NoDup (App_row_names rows).
Proof.
  induction rows as [|[i row] rows IH]; simpl; [constructor|].
  intros H. apply NoDup_cons in H as [Hi Hrest].
  destruct (App.first_string_cell (values row)); [|apply IH, Hrest].
  apply NoDup_cons. split; [|apply IH, Hrest].
  intros Hin. apply list_elem_of_In, App_row_names_labels in Hin as (j & Hj & E).
  apply numbered_name_inj in E. subst j. apply Hi, list_elem_of_In, Hj.
Qed.

Lemma iterrows_labelled_distinct {label : Type} (index : list label) (df : DataFrame) :
  NoDup index -> NoDup (List.map fst (iterrows_labelled index df)).
Proof.
  unfold iterrows_labelled. generalize (List.map (label_row (columns df)) (data df)) as l.
  induction index as [|i index IH]; intros l H; [constructor|].
  apply NoDup_cons in H as [Hi Hrest]. destruct l as [|r l]; simpl; [constructor|].
  apply NoDup_cons. split; [|apply IH, Hrest].
  intros Hin. apply Hi. apply list_elem_of_In in Hin. apply list_elem_of_In.
  apply List.in_map_iff in Hin as ([j row] & <- & Hin). simpl.
  eapply in_combine_l, Hin.
Qed.

Lemma numbered_name_no_nul (i : N) : ~ In 0 (numbered_name i).
Proof.
  unfold numbered_name. intros H.
  apply in_app_or in H as [H|H]; [simpl in H; intuition discriminate|].
  apply in_app_or in H as [H|H]; [|simpl in H; intuition discriminate].
  pose proof (str_of_int_digits (i + 1)) as Hd.
  rewrite List.Forall_forall in Hd. apply Hd in H. unfold is_digit in H. lia.
Qed.

Lemma App_row_names_no_nul (rows : list (N * Series)) :
  Forall (fun name => ~ In 0 name) (App_row_names rows).
Proof.
  induction rows as [|[i row] rows IH]; simpl; [constructor|].
  destruct (App.first_string_cell (values row)); [|exact IH].
  constructor; [apply numbered_name_no_nul | exact IH].
Qed.

(** X16. When the table has no filename column and its index labels are
    pairwise different non-negative integers, [app.py] hands [zf.writestr]
    the names [row_N.txt], [N] being one more than the label of the row, for
    the rows that have a text, in row order: nothing is renamed, the member
    names are these names, and the run ends with its report when every call
    returns and with the exception of the call that raises otherwise. *)
Theorem App_row_number_names (writestr_returns : pystr -> pystr -> bool)
  (index : list N) (df : DataFrame) :
  App.find_filename_col (columns df) = None ->
  NoDup index ->
  exists calls,
    AppScript.convert AppScript.int_succ writestr_returns index df
    = run_outcome writestr_returns df calls
    /\ names calls = App_row_names (iterrows_labelled index df)
    /\ namelist calls = App_row_names (iterrows_labelled index df).
Proof.
  intros Hfc Hnd.
  destruct (AppScript_convert_exact writestr_returns index df) as (st & Hst & Hconv).
  destruct (App_loop_trace _ _ _ _ App_inv_initial Hst)
    as (R & E & HR & Hnames & _ & _ & _ & Htrace).
  rewrite Hfc, App_resolved_numbered in HR. injection HR as <-.
  assert (names (App.zf st) = App_row_names (iterrows_labelled index df)) as Hkept.
  { rewrite Hnames. simpl. eapply App_trace_distinct; [exact Htrace|].
    apply App_row_names_distinct, iterrows_labelled_distinct, Hnd. }
  exists (App.zf st). split; [exact Hconv|]. split; [exact Hkept|].
  rewrite namelist_no_nul; rewrite Hkept; [reflexivity|].
  apply App_row_names_no_nul.
Qed.

Lemma App_row_number_names_witness :
  exists calls,
    AppScript.convert AppScript.int_succ (fun _ _ => true) [4; 7; 9] unnamed_df
    = run_outcome (fun _ _ => true) unnamed_df calls
    /\ names calls = App_row_names (iterrows_labelled [4; 7; 9] unnamed_df)
    /\ namelist calls = App_row_names (iterrows_labelled [4; 7; 9] unnamed_df).
Proof.
  apply (App_row_number_names (fun _ _ => true) [4; 7; 9] unnamed_df).
  - reflexivity.
  - apply (bool_decide_unpack _). vm_compute. exact I.
Defined.

(** Rows that share a label are told apart by [ensure_unique] only. *)
Example repeated_label_scenario :
  exists r,
    AppScript.convert AppScript.int_succ (fun _ _ => true) [4; 4] repeated_df = Ok r
    /\ names (App.archive r) = [lit "row_5.txt"; lit "row_5_2.txt"].
Proof. eexists. split; vm_compute; reflexivity. Qed.

(** A label that is a text has no successor: the first row with a text
    ends the run. *)
Example text_label_scenario :
  AppScript.convert (fun _ : pystr => None) (fun _ _ => true) [lit "k1"; lit "k2"]
    repeated_df
  = Raise TypeError.
Proof. reflexivity. Qed.

(** Under the default index the label of a row is its position. *)
Lemma iterrows_from_labelled (cols : list pystr) (rows : list (list cell)) :
  forall i,
    iterrows_from cols i rows
    = combine (List.map N.of_nat (seq (N.to_nat i) (length rows)))
        (List.map (label_row cols) rows).
Proof.
  induction rows as [|r rows IH]; intros i; [reflexivity|].
  simpl. rewrite N2Nat.id, IH, N2Nat.inj_succ. reflexivity.
Qed.

Lemma iterrows_RangeIndex (df : DataFrame) :
  iterrows df = iterrows_labelled (RangeIndex df) df.
Proof. unfold iterrows, iterrows_labelled, RangeIndex. apply iterrows_from_labelled. Qed.

Lemma TxtToCsv_row_names_labels o (rows : list (N * Series)) (n : pystr) :
  In n (TxtToCsv_row_names o rows) ->
  exists i, In i (List.map fst rows) /\ n = numbered_name i.
Proof.
  induction rows as [|[i row] rows IH]; simpl; [intros []|].
  destruct (TxtToCsv.select_text o row).
  - intros [<-|H]; [exists i; split; [left; reflexivity | reflexivity]|].
    destruct (IH H) as (j & Hj & ->). exists j. split; [right; exact Hj | reflexivity].
  - intros H. destruct (IH H) as (j & Hj & ->). exists j. split; [right; exact Hj | reflexivity].
Qed.

Lemma TxtToCsv_row_names_distinct o (rows : list (N * Series)) :
  NoDup (List.map fst rows) -> NoDup (List.map stem (TxtToCsv_row_names o rows)).
Proof.
  induction rows as [|[i row] rows IH]; simpl; [constructor|].
  intros H. apply NoDup_cons in H as [Hi Hrest].
  destruct (TxtToCsv.select_text o row); [|apply IH, Hrest].
  simpl. apply NoDup_cons. split; [|apply IH, Hrest].
  intros Hin. apply list_elem_of_In, List.in_map_iff in Hin as (n & Hst & Hin).
  apply TxtToCsv_row_names_labels in Hin as (j & Hj & ->).
  unfold stem in Hst. rewrite !numbered_name_splitext in Hst. cbn [fst] in Hst.
  apply app_inv_head, str_of_int_inj in Hst.
  assert (j = i) as -> by lia. apply Hi, list_elem_of_In, Hj.
Qed.

Lemma TxtToCsv_row_names_no_nul o (rows : list (N * Series)) :
  Forall (fun name => ~ In 0 name) (TxtToCsv_row_names o rows).
Proof.
  induction rows as [|[i row] rows IH]; simpl; [constructor|].
  destruct (TxtToCsv.select_text o row); [|exact IH].
  constructor; [apply numbered_name_no_nul | exact IH].
Qed.

(** X17. With no filename column selected and the default empty prefix and
    suffix, the loop of [txt_to_csv.py] over a frame whose index labels are
    pairwise different non-negative integers hands [zf.writestr] the names
    [row_N.txt], [N] being one more than the label of the row, for the rows
    that have a text, in row order: nothing is renamed, and the member names
    are these names. *)
Theorem TxtToCsv_row_number_names (o : TxtToCsv.options) (index : list N)
  (df : DataFrame) :
  TxtToCsv.filename_col o = TxtToCsv.NO_COLUMN ->
  TxtToCsv.prefix o = [] ->
  TxtToCsv.suffix o = [] ->
  NoDup index ->
  names (TxtToCsv.zf (TxtToCsv.loop o TxtToCsv.initial (iterrows_labelled index df)))
  = TxtToCsv_row_names o (iterrows_labelled index df)
  /\ namelist (TxtToCsv.zf (TxtToCsv.loop o TxtToCsv.initial (iterrows_labelled index df)))
     = TxtToCsv_row_names o (iterrows_labelled index df).
Proof.
  intros Hc Hp Hs Hnd.
  assert (names (TxtToCsv.zf (TxtToCsv.loop o TxtToCsv.initial
                                (iterrows_labelled index df)))
          = TxtToCsv_row_names o (iterrows_labelled index df)) as Hkept.
  { destruct (TxtToCsv_loop_trace o (iterrows_labelled index df) TxtToCsv.initial []
                TxtToCsv_inv_initial) as (E & Hnames & _ & _ & Htrace).
    rewrite Hnames, Htrace. simpl.
    rewrite (TxtToCsv_resolved_numbered o _ Hc Hp Hs).
    apply TxtToCsv_emit_all_distinct. simpl.
    apply TxtToCsv_row_names_distinct, iterrows_labelled_distinct, Hnd. }
  split; [exact Hkept|].
  rewrite namelist_no_nul; rewrite Hkept; [reflexivity|].
  apply TxtToCsv_row_names_no_nul.
Qed.

Lemma TxtToCsv_row_number_names_witness :
  names (TxtToCsv.zf (TxtToCsv.loop numbered_options TxtToCsv.initial
                        (iterrows_labelled [4; 7; 9] unnamed_df)))
  = TxtToCsv_row_names numbered_options (iterrows_labelled [4; 7; 9] unnamed_df)
  /\ namelist (TxtToCsv.zf (TxtToCsv.loop numbered_options TxtToCsv.initial
                              (iterrows_labelled [4; 7; 9] unnamed_df)))
     = TxtToCsv_row_names numbered_options (iterrows_labelled [4; 7; 9] unnamed_df).
Proof.
  apply (TxtToCsv_row_number_names numbered_options [4; 7; 9] unnamed_df);
    try reflexivity.
  apply (bool_decide_unpack _). vm_compute. exact I.
Defined.

(** The loop of [txt_to_csv.py] tells rows that share a label apart by its
    counter only. *)
Example TxtToCsv_repeated_label_scenario :
  names (TxtToCsv.zf (TxtToCsv.loop numbered_options TxtToCsv.initial
                        (iterrows_labelled [4; 4] repeated_df)))
  = [lit "row_5.txt"; lit "row_5_2.txt"].
Proof. vm_compute. reflexivity. Qed.

(** * The named-column mode *)

(** X25. In the named-column mode the text column is an entry of the
    select box of line 137, hence a column of the table: for every row
    [row.get] finds the cell instead of falling back to its default, and the
    text of the row is decided by that cell alone. *)
Theorem text_option_always_found {label : Type} (o : TxtToCsv.options)
  (index : list label) (df : DataFrame) (c : pystr) (i : label) (row : Series) :
  TxtToCsv.text_mode o = TxtToCsv.FromColumn ->
  TxtToCsv.text_col o = Some c ->
  In c (text_options (columns df)) ->
  In (i, row) (iterrows_labelled index df) ->
  exists v,
    lookup_label row c = Some v
    /\ TxtToCsv.select_text o row = text_of_cell v.
Proof.
  intros Hmode Hcol Hopt Hrow. unfold text_options in Hopt.
  apply iterrows_labelled_rows in Hrow as (cells & Hr). simpl in Hr. subst row.
  destruct (lookup_label_present _ _ Hopt cells) as [v Hv]. exists v. split; [exact Hv|].
  unfold TxtToCsv.select_text. rewrite Hmode, Hcol. unfold Series_get. rewrite Hv.
  destruct v; reflexivity.
Qed.

Lemma text_option_always_found_witness :
  exists v,
    lookup_label (label_row (columns unnamed_df) [CStr (lit "one"); CNum (lit "1")])
      (lit "text") = Some v
    /\ TxtToCsv.select_text column_options
         (label_row (columns unnamed_df) [CStr (lit "one"); CNum (lit "1")])
       = text_of_cell v.
Proof.
  apply (text_option_always_found column_options [4; 7; 9] unnamed_df (lit "text") 4).
  - reflexivity.
  - reflexivity.
  - left. reflexivity.
  - left. reflexivity.
Defined.
